(** * Author normalisation and citation keys of [publications.models.Publication]

    A shallow embedding of [Publication.__init__] (keyword and author
    post-processing), [Publication.simplify_name] and [Publication.key]
    from [publications/models/publication.py], with the properties of the
    author pipeline and of the citation-key scan proved about it.

    Text is modelled by [string]: a sequence of characters with code points
    in U+0000..U+00FF (one [ascii] per character).  The module is Python 2
    code running under Django, whose text fields are [unicode] objects; the
    four folded letters of [simplify_name] all lie in that range. *)

From Stdlib Require Import String Ascii List ZArith Bool Arith Lia DecimalString.
Import ListNotations.

Open Scope string_scope.

(** ** Python string primitives *)

Module Py.

(** [s[0]], [s[-1]] and [s[n]].  Every use in the source is guarded by a
    length test, so the [None] case is never reached there. *)
Definition first_char (s : string) : option ascii := String.get 0 s.

Fixpoint last_char (s : string) : option ascii :=
  match s with
  | EmptyString => None
  | String c EmptyString => Some c
  | String _ s' => last_char s'
  end.

Definition one (c : ascii) : string := String c EmptyString.

(** [c in s] for a one-character [c]. *)
Fixpoint char_in (c : ascii) (s : string) : bool :=
  match s with
  | EmptyString => false
  | String d s' => Ascii.eqb c d || char_in c s'
  end.

(** [all(p(c) for c in s)]. *)
Fixpoint all_chars (p : ascii -> bool) (s : string) : bool :=
  match s with
  | EmptyString => true
  | String c s' => p c && all_chars p s'
  end.

(** [x in l] for a list of strings. *)
Definition in_list (x : string) (l : list string) : bool :=
  existsb (String.eqb x) l.

(** [s.replace(old, new)]: one left-to-right pass; at each position where
    [old] starts, [new] is emitted and the scan resumes after the match.
    [skip] counts the characters of a match still to be passed over. *)
Fixpoint replace_from (old new : string) (skip : nat) (s : string) : string :=
  match s with
  | EmptyString => EmptyString
  | String c s' =>
      match skip with
      | S k => replace_from old new k s'
      | O =>
          if prefix old s
          then new ++ replace_from old new (String.length old - 1) s'
          else String c (replace_from old new 0 s')
      end
  end.

(** With an empty [old], Python inserts [new] before every character and at
    the end. *)
Fixpoint interleave (new s : string) : string :=
  match s with
  | EmptyString => new
  | String c s' => new ++ String c (interleave new s')
  end.

Definition replace (old new s : string) : string :=
  match old with
  | EmptyString => interleave new s
  | _ => replace_from old new 0 s
  end.

(** [s.split(sep)] for a one-character separator: never the empty list,
    empty pieces are kept. *)
Fixpoint split (sep : ascii) (s : string) : list string :=
  match s with
  | EmptyString => [EmptyString]
  | String c s' =>
      if Ascii.eqb c sep then EmptyString :: split sep s'
      else match split sep s' with
           | [] => [one c]
           | w :: ws => String c w :: ws
           end
  end.

(** [sep.join(l)]. *)
Definition join (sep : string) (l : list string) : string := String.concat sep l.

(** Whitespace of [unicode.strip()] below U+0100: U+0009..U+000D,
    U+001C..U+0020, U+0085 and U+00A0. *)
Definition is_space (c : ascii) : bool :=
  let n := nat_of_ascii c in
  (((9 <=? n) && (n <=? 13)) || ((28 <=? n) && (n <=? 32))
   || (n =? 133) || (n =? 160))%nat.

Fixpoint lstrip (s : string) : string :=
  match s with
  | EmptyString => EmptyString
  | String c s' => if is_space c then lstrip s' else s
  end.

Fixpoint rstrip (s : string) : string :=
  match s with
  | EmptyString => EmptyString
  | String c s' =>
      match rstrip s' with
      | EmptyString => if is_space c then EmptyString else one c
      | r => String c r
      end
  end.

Definition strip (s : string) : string := rstrip (lstrip s).

(** [s.find(c)] for a one-character [c]: the first index, or [-1]. *)
Fixpoint find (c : ascii) (s : string) : Z :=
  match s with
  | EmptyString => -1
  | String d s' =>
      if Ascii.eqb d c then 0
      else let k := find c s' in if (k <? 0)%Z then -1 else k + 1
  end%Z.

(** [unicode.lower()] on U+0000..U+00FF: A-Z, and U+00C0..U+00DE except the
    multiplication sign U+00D7, move up by 32. *)
Definition lower_char (c : ascii) : ascii :=
  let n := nat_of_ascii c in
  if (((65 <=? n) && (n <=? 90))
      || ((192 <=? n) && (n <=? 222) && negb (n =? 215)))%nat
  then ascii_of_nat (n + 32) else c.

Fixpoint lower (s : string) : string :=
  match s with
  | EmptyString => EmptyString
  | String c s' => String (lower_char c) (lower s')
  end.

(** [str(n)] for an integer. *)
Definition str_int (n : Z) : string := NilZero.string_of_int (Z.to_int n).

(** [l[i] = v].  The source only assigns inside the list. *)
Fixpoint update {A : Type} (i : nat) (v : A) (l : list A) : list A :=
  match l, i with
  | [], _ => []
  | _ :: t, O => v :: t
  | h :: t, S i' => h :: update i' v t
  end.

(** Python exceptions that the modelled code can raise. *)
Inductive exn : Type := IndexError | ValueError | UnicodeDecodeError.

Inductive result (A : Type) : Type :=
| Ok (a : A)
| Raise (e : exn).
Arguments Ok {A} a.
Arguments Raise {A} e.

Definition bind {A B : Type} (r : result A) (k : A -> result B) : result B :=
  match r with
  | Ok a => k a
  | Raise e => Raise e
  end.

(** [l[0]]. *)
Definition getitem0 {A : Type} (l : list A) : result A :=
  match l with
  | [] => Raise IndexError
  | x :: _ => Ok x
  end.

(** [ord(c)]. *)
Definition ord (c : ascii) : Z := Z.of_N (N_of_ascii c).

(** [chr(i)] of Python 2: a one-byte [str], defined on [range(256)]. *)
Definition chr (i : Z) : result ascii :=
  if ((0 <=? i) && (i <? 256))%Z then Ok (ascii_of_N (Z.to_N i))
  else Raise ValueError.

(** [u + b] for a [unicode] [u] and a one-byte [str] [b]: the byte is
    decoded as ASCII, which fails from 0x80 on. *)
Definition add_byte (u : string) (b : ascii) : result string :=
  if (N_of_ascii b <? 128)%N then Ok (u ++ one b) else Raise UnicodeDecodeError.

End Py.

Notation "x <- r ;; k" := (Py.bind r (fun x => k))
  (at level 61, r at next level, right associativity).

Import Py.

(** ** The record and its construction *)

Definition suffixes : list string :=
  ["I"; "II"; "III"; "IV"; "V"; "VI"; "VII"; "VIII"; "Jr."; "Sr."].
Definition prefixes : list string := ["Dr."].
Definition prepositions : list string := ["van"; "von"; "der"; "de"; "den"].
Definition ascii_uppercase : string := "ABCDEFGHIJKLMNOPQRSTUVWXYZ".

(** The letters folded by [simplify_name]: U+00E4, U+00F6, U+00FC, U+00DF. *)
Definition a_umlaut : string := one "228"%char.
Definition o_umlaut : string := one "246"%char.
Definition u_umlaut : string := one "252"%char.
Definition sharp_s : string := one "223"%char.

(** [Publication.simplify_name]. *)
Definition simplify_name (name : string) : string :=
  let name := lower name in
  let name := replace a_umlaut "ae" name in
  let name := replace o_umlaut "oe" name in
  let name := replace u_umlaut "ue" name in
  let name := replace sharp_s "ss" name in
  name.

(** Lines 113-118: initials written after the surname.  [names] comes from
    [split], which never returns the empty list, so [names[-1]] exists. *)
Definition has_initials (names : list string) : bool :=
  let w := last names "" in
  (String.length w <=? 3)%nat
  && negb (in_list w suffixes)
  && all_chars (fun c => char_in c ascii_uppercase) w.

Definition initials (names : list string) : list string :=
  if has_initials names
  then (map (fun c => String c ".") (list_ascii_of_string (last names ""))
        ++ removelast names)%list
  else names.

(** Lines 120-126: the run of suffixes at the end of [names]. *)
Fixpoint suffix_run (reversed : list string) : nat :=
  match reversed with
  | [] => 0
  | name :: rest => if in_list name suffixes then S (suffix_run rest) else 0
  end.

Definition num_suffixes (names : list string) : nat := suffix_run (rev names).

(** Lines 136-142, for a word that is not skipped: [Some] the abbreviation
    assigned to [names[j]], or [None] when the word is left alone.  The
    indexings [name[0]] and [name[k + 1]] are guarded by the tests. *)
Definition abbreviation (name : string) : option string :=
  let len := Z.of_nat (String.length name) in
  let ends_with_dot :=
    match last_char name with
    | Some c => Ascii.eqb c "."
    | None => false
    end in
  if ((2 <? len) || ((0 <? len) && negb ends_with_dot))%Z
  then
    let k := find "-" name in
    match first_char name with
    | None => None
    | Some c0 =>
        if ((0 <? k + 1) && (k + 1 <? len))%Z
        then match String.get (Z.to_nat (k + 1)) name with
             | Some c1 => Some (String c0 (".-" ++ String c1 "."))
             | None => None
             end
        else Some (String c0 ".")
    end
  else None.

(** Lines 129-142: one iteration of the abbreviation loop. *)
Definition abbreviate_step (j : nat) (name : string) (names : list string)
  : list string :=
  if (j =? 0)%nat && in_list name prefixes then names
  else if (0 <? j)%nat && in_list name prepositions then names
  else match abbreviation name with
       | Some a => update j a names
       | None => names
       end.

(** The loop runs over the slice [names[:-1 - num_suffixes]], a copy taken
    before the first assignment. *)
Fixpoint abbreviate_loop (j : nat) (slice names : list string) : list string :=
  match slice with
  | [] => names
  | name :: rest => abbreviate_loop (S j) rest (abbreviate_step j name names)
  end.

Definition abbreviate_names (names : list string) : list string :=
  let n := num_suffixes names in
  abbreviate_loop 0 (firstn (List.length names - (1 + n)) names) names.

(** Lines 111-142: the word list of one author. *)
Definition author_names (author : string) : list string :=
  abbreviate_names (initials (split " " author)).

(** Lines 148-153: the simplified entries of one author. *)
Definition simple_names (names : list string) : list string :=
  if (1 <? List.length names)%nat
  then map (fun name => simplify_name (join " " [name; last names ""]))
           (split "-" (hd "" names))
  else [simplify_name (hd "" names)].

(** Lines 107-153: the body of the loop over [enumerate(self.authors_list)];
    the state is [(authors_list, authors_list_simple)]. *)
Definition author_step (i : nat) (author : string)
  (st : list string * list string) : list string * list string :=
  if String.eqb author "" then st
  else
    let names := author_names author in
    match names with
    | [] => st
    | _ => (update i (join " " names) (fst st),
            (snd st ++ simple_names names)%list)
    end.

(** The loop reads [authors_list[i]] from the list it is assigning to. *)
Fixpoint authors_loop (n i : nat) (st : list string * list string)
  : list string * list string :=
  match n with
  | O => st
  | S n' =>
      match nth_error (fst st) i with
      | None => st
      | Some author => authors_loop n' (S i) (author_step i author st)
      end
  end.

(** Lines 76-80 and 87-90: the separator replacements. *)
Definition keyword_separators (s : string) : string :=
  replace " and " ", " (replace ",and " ", " (replace ", and " ", "
    (replace ";" "," s))).

Definition author_separators (s : string) : string :=
  replace ";" "," (replace " and " ", " (replace ",and " ", "
    (replace ", and " ", " s))).

(** Line 83. *)
Definition wrapped (authors : string) : bool :=
  negb (String.eqb authors "")
  && match first_char authors, last_char authors with
     | Some a, Some b => Ascii.eqb a "{" && Ascii.eqb b "}"
     | _, _ => false
     end.

(** Lines 159-166.  [authors_list] holds at least one entry here. *)
Definition rewrite_authors (authors_list : list string) : string :=
  if (2 <? List.length authors_list)%nat
  then join ", and " [join ", " (removelast authors_list); last authors_list ""]
  else if (1 <? List.length authors_list)%nat
  then join " and " authors_list
  else hd "" authors_list.

(** The fields of a [Publication] that the author pipeline and the key
    generation read or write.  [authors_list_simple] and [authors_bibtex]
    are attributes that [__init__] sets only for authors that are not
    wrapped in braces. *)
Record Publication : Type := {
  id : option Z;
  year : option Z;
  month : option Z;
  keywords : string;
  authors : string;
  authors_list : list string;
  authors_list_simple : option (list string);
  authors_bibtex : option string
}.

(** [Publication.__init__], lines 75-166. *)
Definition init (pk year month : option Z) (keywords authors : string)
  : Publication :=
  let keywords :=
    join ", " (map (fun s => lower (strip s))
                   (split "," (keyword_separators keywords))) in
  if wrapped authors then
    {| id := pk; year := year; month := month; keywords := keywords;
       authors := authors;
       authors_list := [substring 1 (String.length authors - 2) authors];
       authors_list_simple := None;
       authors_bibtex := None |}
  else
    let authors := author_separators authors in
    let tokens := map strip (split "," authors) in
    let st := authors_loop (List.length tokens) 0 (tokens, []) in
    {| id := pk; year := year; month := month; keywords := keywords;
       authors := rewrite_authors (fst st);
       authors_list := fst st;
       authors_list_simple := Some (snd st);
       authors_bibtex := Some (join " and " (fst st)) |}.

(** The normaliser alone: a record built from an authors string. *)
Definition normalize (authors : string) : Publication :=
  init None None None "" authors.

(** ** Citation keys *)

(** A stored row of the publication table: primary key and the persisted
    columns read by [key]. *)
Record Row : Type := {
  row_id : Z;
  row_year : option Z;
  row_month : option Z;
  row_keywords : string;
  row_authors : string
}.

(** A record loaded from the table is built by [__init__] from its row. *)
Definition load (r : Row) : Publication :=
  init (Some (row_id r)) (row_year r) (row_month r)
       (row_keywords r) (row_authors r).

(** [needle in hay], for strings. *)
Fixpoint contains (needle hay : string) : bool :=
  prefix needle hay
  || match hay with
     | EmptyString => false
     | String _ hay' => contains needle hay'
     end.

(** The [authors__icontains] lookup: a case-insensitive substring test. *)
Definition icontains (hay needle : string) : bool :=
  contains (lower needle) (lower hay).

Definition option_Z_eqb (a b : option Z) : bool :=
  match a, b with
  | Some x, Some y => (x =? y)%Z
  | None, None => true
  | _, _ => false
  end.

(** [order_by('month', 'id')]: ascending, a missing month first. *)
Definition month_id_leb (a b : Row) : bool :=
  match row_month a, row_month b with
  | None, None => (row_id a <=? row_id b)%Z
  | None, Some _ => true
  | Some _, None => false
  | Some x, Some y => (x <? y)%Z || ((x =? y)%Z && (row_id a <=? row_id b)%Z)
  end.

Fixpoint insert_row (r : Row) (l : list Row) : list Row :=
  match l with
  | [] => [r]
  | h :: t => if month_id_leb r h then r :: l else h :: insert_row r t
  end.

Definition order_by_month_id (l : list Row) : list Row :=
  fold_right insert_row [] l.

(** Lines 203-205: the siblings of a record, as loaded records. *)
Definition siblings (objects : list Row) (y : option Z) (author_lastname : string)
  : list Publication :=
  map load
    (order_by_month_id
       (filter (fun r => option_Z_eqb (row_year r) y
                         && icontains (row_authors r) author_lastname)
               objects)).

(** [publication == self] is Django's [Model.__eq__]: two records of the
    same model are equal when their primary keys are; a record without a
    primary key is equal to itself only, and is no loaded record. *)
Definition pub_eqb (publication self : Publication) : bool :=
  match id self, id publication with
  | Some a, Some b => (a =? b)%Z
  | _, _ => false
  end.

(** [authors_list[0].split(' ')[-1]]. *)
Definition lastname (p : Publication) : result string :=
  first <- getitem0 (authors_list p) ;;
  Ok (last (split " " first) "").

(** [str(self.year)]. *)
Definition str_year (y : option Z) : string :=
  match y with
  | Some n => str_int n
  | None => "None"
  end.

(** Lines 211-215. *)
Fixpoint key_loop (self : Publication) (author_lastname : string)
  (publications : list Publication) (char : Z) : result Z :=
  match publications with
  | [] => Ok char
  | publication :: rest =>
      if pub_eqb publication self then Ok char
      else
        l <- lastname publication ;;
        if String.eqb l author_lastname
        then key_loop self author_lastname rest (char + 1)
        else key_loop self author_lastname rest char
  end.

(** [surname + str(year) + chr(char)], line 217. *)
Definition key_string (surname : string) (y : option Z) (char : Z)
  : result string :=
  c <- chr char ;;
  add_byte (surname ++ str_year y) c.

(** [Publication.key], lines 199-217, over the rows of the table. *)
Definition key (objects : list Row) (self : Publication) : result string :=
  author_lastname <- lastname self ;;
  let publications := siblings objects (year self) author_lastname in
  char <- key_loop self author_lastname publications (ord "a") ;;
  surname <- lastname self ;;
  key_string surname (year self) char.

(** ** Vocabulary of the statements *)

(** A row of the year 2020 with the given key, month and authors; three
    records of January, March and March with one surname. *)
Definition smith (pk m : Z) (name : string) : Row :=
  {| row_id := pk; row_year := Some 2020%Z; row_month := Some m;
     row_keywords := ""; row_authors := name |}.

Definition smiths : list Row :=
  [smith 1 1 "John Smith"; smith 2 3 "Jane Smith"; smith 3 3 "Adam Smith"].

(** The word at index [j] after its iteration of the abbreviation loop. *)
Definition abbreviated (j : nat) (name : string) : string :=
  if (j =? 0)%nat && in_list name prefixes then name
  else if (0 <? j)%nat && in_list name prepositions then name
  else match abbreviation name with
       | Some a => a
       | None => name
       end.

(** The words of a slice that starts at index [j], after the loop. *)
Fixpoint abbreviated_from (j : nat) (slice : list string) : list string :=
  match slice with
  | [] => []
  | name :: rest => abbreviated j name :: abbreviated_from (S j) rest
  end.

(** The entry that the author loop leaves at the index of a token. *)
Definition display_name (author : string) : string :=
  if String.eqb author "" then author
  else match author_names author with
       | [] => author
       | names => join " " names
       end.

(** The simplified names that the author loop appends for a token. *)
Definition simple_entries (author : string) : list string :=
  if String.eqb author "" then []
  else match author_names author with
       | [] => []
       | names => simple_names names
       end.

(** The token list of an authors string that is not wrapped in braces
    (lines 87-93). *)
Definition tokens (authors : string) : list string :=
  map strip (split "," (author_separators authors)).

(** An uppercase ASCII letter, by code point. *)
Definition is_upper (c : ascii) : bool :=
  ((65 <=? nat_of_ascii c) && (nat_of_ascii c <=? 90))%nat.

(** [c + '.'] for the characters of a word. *)
Definition dotted (w : string) : list string :=
  map (fun c => String c ".") (list_ascii_of_string w).

(** A sibling whose first author has the given surname. *)
Definition same_surname (surname : string) (p : Publication) : bool :=
  match lastname p with
  | Ok l => String.eqb l surname
  | Raise _ => false
  end.

(** The siblings in front of the record: none of them is the record. *)
Definition all_before (self : Publication) (pre : list Publication) : bool :=
  forallb (fun p => negb (pub_eqb p self)) pre.

(** The letters that a key can end in while the scan stays below 26. *)
Definition alphabet : string := "abcdefghijklmnopqrstuvwxyz".

(** Twenty-seven records of one author in one year. *)
Definition crowd : list Row :=
  map (fun i => smith (Z.of_nat i) 1 "John Smith") (seq 1 27).

(** A name without dashes or braces. *)
Definition plain (t : string) : bool :=
  all_chars (fun c => negb (char_in c "-{}")) t.

(** A name in which "and" is no word of its own, with blanks or the ends of
    the name around it. *)
Definition and_free (t : string) : bool :=
  negb (contains " and " (" " ++ t ++ " ")).

(** The rewritten string of a list with a first name [a] and further names
    [l], when there are three or more names in all. *)
Fixpoint oxford (a : string) (l : list string) : string :=
  match l with
  | [] => a
  | [b] => a ++ ", and " ++ b
  | b :: l' => a ++ ", " ++ oxford b l'
  end.

(** A token as [tokens] produces it, in which "and" is no word. *)
Definition clean (t : string) : Prop :=
  char_in "," t = false /\ char_in ";" t = false
  /\ strip t = t /\ and_free t = true.

(** A word that is one character followed by a dot. *)
Definition is_initial (w : string) : bool :=
  match w with
  | String _ r => String.eqb r "."
  | EmptyString => false
  end.

(** A word list made of initials, then one word for the surname, then
    suffixes only. *)
Fixpoint initials_then_surname (names : list string) : bool :=
  match names with
  | [] => false
  | w :: rest =>
      forallb (fun s => in_list s suffixes) rest
      || (is_initial w && initials_then_surname rest)
  end.

(** A name in the abbreviated form "Initial. Initial. Lastname", with
    suffixes allowed after the last name. *)
Definition abbreviated_name (t : string) : bool :=
  initials_then_surname (split " " t).

(** The text made of the initials of the given characters. *)
Definition initials_text (cs : list ascii) : string :=
  join " " (map (fun c => String c ".") cs).

(** No match of [old] starts inside [a] when [a] is followed by [rest]. *)
Fixpoint clear_until (old a rest : string) : bool :=
  match a with
  | EmptyString => true
  | String _ a' => negb (prefix old (a ++ rest)) && clear_until old a' rest
  end.

(** ** The other methods of the model *)

(** The columns that the remaining methods read besides those of
    [Publication]; they are kept in a record of their own.  [pages] is the
    text held by the pages field. *)
Record Details : Type := {
  citekey : option string;
  title : string;
  journal : string;
  book_title : string;
  publisher : string;
  institution : string;
  volume : option Z;
  number : option Z;
  pages : string;
  doi : string;
  isbn : string;
  issn : string
}.

(** Truth value of a text and of a nullable integer. *)
Definition nonempty (s : string) : bool := negb (String.eqb s "").

Definition nonzero (n : option Z) : bool :=
  match n with
  | Some k => negb (k =? 0)%Z
  | None => false
  end.

(** [s.rfind(c, lo, hi)] for a one-character [c] and bounds that are not
    negative: the last index [i] with [lo <= i < hi] that holds [c], or
    [-1]. *)
Fixpoint rfind_from (c : ascii) (lo hi i : nat) (s : string) (found : Z) : Z :=
  match s with
  | EmptyString => found
  | String d s' =>
      rfind_from c lo hi (S i) s'
        (if (lo <=? i)%nat && (i <? hi)%nat && Ascii.eqb d c
         then Z.of_nat i else found)
  end.

Definition rfind (c : ascii) (lo hi : nat) (s : string) : Z :=
  rfind_from c lo hi 0 s (-1).

(** [Publication.__unicode__], lines 178-187. *)
Definition __unicode__ (d : Details) : string :=
  if (String.length (title d) <? 64)%nat then title d
  else
    let index := rfind " " 40 62 (title d) in
    if (index <? 0)%Z then substring 0 61 (title d) ++ "..."
    else substring 0 (Z.to_nat index) (title d) ++ "...".

(** [Publication.authors_escaped], lines 194-196. *)
Definition authors_escaped (self : Publication) : list (string * string) :=
  map (fun author => (author, replace " " "+" (lower author)))
      (authors_list self).

(** [Publication.first_author], lines 231-232. *)
Definition first_author (self : Publication) : result string :=
  getitem0 (authors_list self).

(** [Publication.journal_or_book_title], lines 235-239. *)
Definition journal_or_book_title (d : Details) : string :=
  if nonempty (journal d) then journal d else book_title d.

(** [enumerate(l, start)]. *)
Fixpoint enumerate {A : Type} (start : Z) (l : list A) : list (Z * A) :=
  match l with
  | [] => []
  | x :: rest => (start, x) :: enumerate (start + 1) rest
  end.

(** [MONTH_CHOICES] and [MONTH_BIBTEX], lines 26-27, over the two sequences
    [calendar.month_name] and [calendar.month_abbr], whose entry 0 is not a
    month.  The keys of the dictionary are distinct, so it is held as the
    list of its items. *)
Definition MONTH_CHOICES (month_name : list string) : list (Z * string) :=
  enumerate 1 (tl month_name).

Definition MONTH_BIBTEX (month_abbr : list string) : list (Z * string) :=
  enumerate 1 (tl month_abbr).

(** [d.get(key, default)]. *)
Fixpoint dict_get (d : list (Z * string)) (key : option Z) (default : string)
  : string :=
  match d with
  | [] => default
  | (k, v) :: rest =>
      if option_Z_eqb (Some k) key then v else dict_get rest key default
  end.

(** [Publication.month_bibtex], lines 220-221. *)
Definition month_bibtex (month_abbr : list string) (self : Publication) : string :=
  dict_get (MONTH_BIBTEX month_abbr) (month self) "".

(** [Publication.month_long], lines 224-228. *)
Fixpoint month_long_loop (choices : list (Z * string)) (m : option Z) : string :=
  match choices with
  | [] => ""
  | (month_int, month_str) :: rest =>
      if option_Z_eqb (Some month_int) m then month_str
      else month_long_loop rest m
  end.

Definition month_long (month_name : list string) (self : Publication) : string :=
  month_long_loop (MONTH_CHOICES month_name) (month self).

(** ['{0}'.format(x)] for a nullable integer. *)
Definition format_int (x : option Z) : string := str_year x.

(** Lines 247-254: the label of the site domain used in [z3988]. *)
Definition rfr_id (domain : string) : string :=
  let parts := split "." domain in
  if (2 <? List.length parts)%nat then nth (List.length parts - 2) parts ""
  else if (1 <? List.length parts)%nat then nth 0 parts ""
  else "".

Section Quoting.

(** [django.utils.http.urlquote_plus]. *)
Variable urlquote_plus : string -> string.

(** [Publication.keywords_escaped], lines 189-191. *)
Definition keywords_escaped (self : Publication) : list (string * string) :=
  map (fun keyword => (strip keyword, urlquote_plus (strip keyword)))
      (split "," (keywords self)).

(** [Publication.z3988], lines 242-298: the list [contextObj] for a site
    with the given domain, and the string joined from it. *)
Definition z3988_items (domain : string) (self : Publication) (d : Details)
  : list string :=
  let contextObj := ["ctx_ver=Z39.88-2004"] in
  let contextObj :=
    if nonempty (book_title d) && negb (nonempty (journal d)) then
      (contextObj
       ++ ["rft_val_fmt=info:ofi/fmt:kev:mtx:book";
           ("rfr_id=info:sid/" ++ domain ++ ":" ++ rfr_id domain)%string;
           ("rft_id=" ++ urlquote_plus (doi d))%string;
           ("rft.btitle=" ++ urlquote_plus (title d))%string]
       ++ (if nonempty (publisher d)
           then [("rft.pub=" ++ urlquote_plus (publisher d))%string] else []))%list
    else
      (contextObj
       ++ ["rft_val_fmt=info:ofi/fmt:kev:mtx:journal";
           ("rfr_id=info:sid/" ++ domain ++ ":" ++ rfr_id domain)%string;
           ("rft_id=" ++ urlquote_plus (doi d))%string;
           ("rft.atitle=" ++ urlquote_plus (title d))%string]
       ++ (if nonempty (journal d)
           then [("rft.jtitle=" ++ urlquote_plus (journal d))%string] else [])
       ++ (if nonzero (volume d)
           then [("rft.volume=" ++ format_int (volume d))%string] else [])
       ++ (if nonempty (pages d)
           then [("rft.pages=" ++ urlquote_plus (pages d))%string] else [])
       ++ (if nonzero (number d)
           then [("rft.issue=" ++ format_int (number d))%string] else []))%list in
  let contextObj :=
    (contextObj
     ++ [if nonzero (month self)
         then ("rft.date=" ++ format_int (year self) ++ "-"
               ++ format_int (month self) ++ "-1")%string
         else ("rft.date=" ++ format_int (year self))%string])%list in
  let contextObj :=
    (contextObj
     ++ map (fun author => ("rft.au=" ++ urlquote_plus author)%string)
            (authors_list self))%list in
  let contextObj :=
    (contextObj
     ++ (if nonempty (isbn d)
         then [("rft.isbn=" ++ urlquote_plus (isbn d))%string] else []))%list in
  let contextObj :=
    (contextObj
     ++ (if nonempty (issn d)
         then [("rft.issn=" ++ urlquote_plus (issn d))%string] else []))%list in
  contextObj.

Definition z3988 (domain : string) (self : Publication) (d : Details) : string :=
  join "&" (z3988_items domain self d).

End Quoting.

(** [Publication.clean], lines 301-310, over the rows of the table: the
    columns after the call, or the exception of [key].  The module keeps the
    name apart from the predicate [clean] on tokens. *)
Module Method.

Definition clean (objects : list Row) (self : Publication) (d : Details)
  : result Details :=
  new_citekey <-
    (match citekey d with
     | Some (String c k) => Ok (Some (String c k))
     | _ => k <- key objects self ;; Ok (Some k)
     end) ;;
  Ok {| citekey := new_citekey;
        title := strip (title d);
        journal := strip (journal d);
        book_title := strip (book_title d);
        publisher := strip (publisher d);
        institution := strip (institution d);
        volume := volume d; number := number d; pages := pages d;
        doi := doi d; isbn := isbn d; issn := issn d |}.

End Method.

(** The siblings that the scan of [key] passes before it stops. *)
Fixpoint earlier (self : Publication) (publications : list Publication)
  : list Publication :=
  match publications with
  | [] => []
  | p :: rest => if pub_eqb p self then [] else p :: earlier self rest
  end.

(** A character that [lower] leaves as it is. *)
Definition lower_fixed (c : ascii) : bool := Ascii.eqb (lower_char c) c.

(** The four letters folded by [simplify_name]. *)
Definition folded_letters : string :=
  a_umlaut ++ o_umlaut ++ u_umlaut ++ sharp_s.

(** The month names of the C locale, entry 0 included. *)
Definition english_month_name : list string :=
  [""; "January"; "February"; "March"; "April"; "May"; "June"; "July";
   "August"; "September"; "October"; "November"; "December"].

Definition english_month_abbr : list string :=
  [""; "Jan"; "Feb"; "Mar"; "Apr"; "May"; "Jun"; "Jul"; "Aug"; "Sep"; "Oct";
   "Nov"; "Dec"].

(** [names[m]] for a month [m] from 1 to the last index of [names], and
    the empty text for any other month or none. *)
Definition month_entry (names : list string) (m : option Z) : string :=
  match m with
  | Some k =>
      if ((1 <=? k) && (k <? Z.of_nat (List.length names)))%Z
      then nth (Z.to_nat k) names ""
      else ""
  | None => ""
  end.

(** ** Sample runs *)

Example replace_single_pass : replace " and " ", " " and and " = ", and ".
Proof. reflexivity. Qed.

Example replace_not_rescanned : replace "aa" "a" "aaaa" = "aa".
Proof. reflexivity. Qed.

Example split_keeps_empty : split "," "A,,B" = ["A"; ""; "B"].
Proof. reflexivity. Qed.

Example split_empty : split "," "" = [""].
Proof. reflexivity. Qed.

Example strip_both : strip "  a b  " = "a b".
Proof. reflexivity. Qed.

Example find_absent : find "-" "Jean" = (-1)%Z.
Proof. reflexivity. Qed.

Example find_first : find "-" "Jean-Paul-X" = 4%Z.
Proof. reflexivity. Qed.

Example str_int_2020 : str_int 2020 = "2020".
Proof. reflexivity. Qed.

Example gauss : authors_list (normalize "Gauss CF") = ["C. F. Gauss"].
Proof. reflexivity. Qed.

Example sartre :
  authors_list (normalize "Jean-Paul Sartre") = ["J.-P. Sartre"]
  /\ authors_list_simple (normalize "Jean-Paul Sartre")
     = Some ["j. sartre"; "p. sartre"].
Proof. split; reflexivity. Qed.

Example three_authors :
  authors (normalize "Alice Smith, Bob Jones, Carol Lee")
  = "A. Smith, B. Jones, and C. Lee".
Proof. reflexivity. Qed.

Example group_name :
  authors_list (normalize "{Special Group Name}") = ["Special Group Name"].
Proof. reflexivity. Qed.

Example mueller :
  simplify_name ("M" ++ u_umlaut ++ "ller") = "mueller".
Proof. reflexivity. Qed.

Example von_neumann :
  authors_list (normalize "Dr. John von Neumann; Kurt Goedel Jr. and Smith AB")
  = ["Dr. J. von Neumann"; "K. Goedel Jr."; "A. B. Smith"].
Proof. reflexivity. Qed.

Example smith_keys :
  map (fun r => key smiths (load r)) smiths
  = [Ok "Smith2020a"; Ok "Smith2020b"; Ok "Smith2020c"].
Proof. reflexivity. Qed.

(** ** Strings and lists: basic facts *)

Section StringFacts.

Lemma append_nil_r (s : string) : s ++ "" = s.
Proof. induction s as [|c s IH]; simpl; [reflexivity | now rewrite IH]. Qed.

Lemma append_assoc (a b c : string) : (a ++ b) ++ c = a ++ b ++ c.
Proof. induction a as [|x a IH]; simpl; [reflexivity | now rewrite IH]. Qed.

Lemma length_append (a b : string) :
  String.length (a ++ b) = String.length a + String.length b.
Proof. induction a as [|x a IH]; simpl; [reflexivity | now rewrite IH]. Qed.

Lemma prefix_nil_r (p : string) : prefix p "" = true -> p = "".
Proof. destruct p; simpl; [reflexivity | discriminate]. Qed.

Lemma prefix_cons (a b : ascii) (p s : string) :
  prefix (String a p) (String b s) = Ascii.eqb a b && prefix p s.
Proof.
  simpl. destruct (ascii_dec a b) as [->|n].
  - now rewrite Ascii.eqb_refl.
  - apply Ascii.eqb_neq in n. now rewrite n.
Qed.

Lemma prefix_append (p s : string) : prefix p (p ++ s) = true.
Proof.
  induction p as [|c p IH]; simpl; [now destruct s|].
  destruct (ascii_dec c c); [exact IH | congruence].
Qed.

Lemma char_in_append (c : ascii) (a b : string) :
  char_in c (a ++ b) = char_in c a || char_in c b.
Proof.
  induction a as [|x a IH]; simpl; [reflexivity|].
  now rewrite IH, orb_assoc.
Qed.

Lemma split_not_nil (sep : ascii) (s : string) : split sep s <> [].
Proof.
  destruct s as [|c s]; simpl; [discriminate|].
  destruct (Ascii.eqb c sep); [discriminate|].
  destruct (split sep s); discriminate.
Qed.

Lemma update_app {A : Type} (pre : list A) (x v : A) (post : list A) :
  update (List.length pre) v (pre ++ x :: post)%list = (pre ++ v :: post)%list.
Proof. induction pre as [|h pre IH]; simpl; [reflexivity | now rewrite IH]. Qed.

Lemma update_length {A : Type} (i : nat) (v : A) (l : list A) :
  List.length (update i v l) = List.length l.
Proof.
  revert i; induction l as [|h l IH]; intros [|i]; simpl; auto.
Qed.

Lemma nth_error_middle {A : Type} (pre : list A) (x : A) (post : list A) :
  nth_error (pre ++ x :: post)%list (List.length pre) = Some x.
Proof. induction pre as [|h pre IH]; simpl; [reflexivity | exact IH]. Qed.

End StringFacts.

(** ** The two loops of [__init__] as maps *)

Section Loops.

Lemma abbreviate_step_middle (pre : list string) (name : string) (post : list string) :
  abbreviate_step (List.length pre) name (pre ++ name :: post)%list
  = (pre ++ abbreviated (List.length pre) name :: post)%list.
Proof.
  unfold abbreviate_step, abbreviated.
  destruct ((List.length pre =? 0)%nat && in_list name prefixes); [reflexivity|].
  destruct ((0 <? List.length pre)%nat && in_list name prepositions); [reflexivity|].
  destruct (abbreviation name); [apply update_app | reflexivity].
Qed.

Lemma abbreviate_loop_middle (slice pre post : list string) :
  abbreviate_loop (List.length pre) slice (pre ++ slice ++ post)%list
  = (pre ++ abbreviated_from (List.length pre) slice ++ post)%list.
Proof.
  revert pre; induction slice as [|name rest IH]; intros pre; simpl.
  - reflexivity.
  - rewrite abbreviate_step_middle.
    replace (pre ++ abbreviated (List.length pre) name :: rest ++ post)%list
      with ((pre ++ [abbreviated (List.length pre) name]) ++ rest ++ post)%list
      by (rewrite <- app_assoc; reflexivity).
    replace (S (List.length pre))
      with (List.length (pre ++ [abbreviated (List.length pre) name])%list)
      by (rewrite length_app; simpl; lia).
    rewrite IH, <- app_assoc. reflexivity.
Qed.

Lemma abbreviate_names_map (names : list string) :
  abbreviate_names names
  = (let m := List.length names - (1 + num_suffixes names) in
     abbreviated_from 0 (firstn m names) ++ skipn m names)%list.
Proof.
  unfold abbreviate_names. cbv zeta.
  set (m := List.length names - (1 + num_suffixes names)).
  rewrite <- (firstn_skipn m names) at 2.
  exact (abbreviate_loop_middle (firstn m names) [] (skipn m names)).
Qed.

Lemma abbreviated_from_length (j : nat) (l : list string) :
  List.length (abbreviated_from j l) = List.length l.
Proof. revert j; induction l as [|x l IH]; intros j; simpl; auto. Qed.

Lemma abbreviate_names_length (names : list string) :
  List.length (abbreviate_names names) = List.length names.
Proof.
  rewrite abbreviate_names_map. cbv zeta.
  rewrite length_app, abbreviated_from_length, <- length_app, firstn_skipn.
  reflexivity.
Qed.

Lemma author_step_middle (pre : list string) (author : string)
  (post acc : list string) :
  author_step (List.length pre) author ((pre ++ author :: post)%list, acc)
  = ((pre ++ display_name author :: post)%list,
     (acc ++ simple_entries author)%list).
Proof.
  unfold author_step, display_name, simple_entries.
  destruct (String.eqb author "").
  - now rewrite app_nil_r.
  - destruct (author_names author) as [|n ns] eqn:E.
    + now rewrite app_nil_r.
    + cbn [fst snd]. now rewrite update_app.
Qed.

Lemma authors_loop_middle (todo pre acc : list string) :
  authors_loop (List.length todo) (List.length pre) ((pre ++ todo)%list, acc)
  = ((pre ++ map display_name todo)%list,
     (acc ++ flat_map simple_entries todo)%list).
Proof.
  revert pre acc; induction todo as [|author rest IH]; intros pre acc; simpl.
  - now rewrite !app_nil_r.
  - rewrite nth_error_middle, author_step_middle.
    replace (pre ++ display_name author :: rest)%list
      with ((pre ++ [display_name author]) ++ rest)%list
      by (rewrite <- app_assoc; reflexivity).
    replace (S (List.length pre))
      with (List.length (pre ++ [display_name author])%list)
      by (rewrite length_app; simpl; lia).
    rewrite IH, <- !app_assoc. reflexivity.
Qed.

Lemma authors_loop_map (l : list string) :
  authors_loop (List.length l) 0 (l, [])
  = (map display_name l, flat_map simple_entries l).
Proof. exact (authors_loop_middle l [] []). Qed.

(** The fields set by [__init__] for authors that are not wrapped. *)
Lemma init_plain (pk y m : option Z) (kw raw : string) :
  wrapped raw = false ->
  authors_list (init pk y m kw raw) = map display_name (tokens raw)
  /\ authors_list_simple (init pk y m kw raw)
     = Some (flat_map simple_entries (tokens raw))
  /\ authors (init pk y m kw raw)
     = rewrite_authors (map display_name (tokens raw)).
Proof.
  intros W. unfold init. rewrite W. cbn [authors_list authors_list_simple authors].
  fold (tokens raw). rewrite authors_loop_map. cbn [fst snd]. auto.
Qed.

Lemma init_wrapped (pk y m : option Z) (kw raw : string) :
  wrapped raw = true ->
  authors_list (init pk y m kw raw)
  = [substring 1 (String.length raw - 2) raw]
  /\ authors (init pk y m kw raw) = raw
  /\ authors_list_simple (init pk y m kw raw) = None
  /\ authors_bibtex (init pk y m kw raw) = None.
Proof. intros W. unfold init. rewrite W. cbn. auto. Qed.

Lemma tokens_not_nil (raw : string) : tokens raw <> [].
Proof.
  unfold tokens. intros E. apply map_eq_nil in E.
  exact (split_not_nil _ _ E).
Qed.

Lemma init_authors_list_not_nil (pk y m : option Z) (kw raw : string) :
  authors_list (init pk y m kw raw) <> [].
Proof.
  destruct (wrapped raw) eqn:W.
  - destruct (init_wrapped pk y m kw raw W) as [-> _]. discriminate.
  - destruct (init_plain pk y m kw raw W) as [-> _].
    intros E. apply map_eq_nil in E. exact (tokens_not_nil _ E).
Qed.

End Loops.

(** ** Authors wrapped in braces *)

Section Wrapped.

Lemma last_char_split (s : string) (c : ascii) :
  last_char s = Some c ->
  s = substring 0 (String.length s - 1) s ++ one c.
Proof.
  induction s as [|x s IH]; [discriminate|].
  destruct s as [|y s'].
  - simpl. intros E. injection E as ->. reflexivity.
  - intros E. change (last_char (String x (String y s'))) with (last_char (String y s')) in E.
    specialize (IH E).
    replace (String.length (String x (String y s')) - 1)
      with (S (String.length (String y s') - 1)) by (simpl; lia).
    cbn [substring]. cbn [append]. f_equal. exact IH.
Qed.

Lemma wrapped_shape (raw : string) :
  wrapped raw = true ->
  raw = "{" ++ substring 1 (String.length raw - 2) raw ++ "}".
Proof.
  unfold wrapped, first_char. destruct raw as [|a s]; [discriminate|].
  cbn [negb String.eqb andb String.get].
  destruct (last_char (String a s)) as [b|] eqn:L; [|discriminate].
  intros H. apply andb_prop in H. destruct H as [Ha Hb].
  apply Ascii.eqb_eq in Ha, Hb. subst a b.
  destruct s as [|y s'].
  - simpl in L. discriminate.
  - change (last_char (String "{" (String y s'))) with (last_char (String y s')) in L.
    apply last_char_split in L.
    replace (String.length (String "{" (String y s')) - 2)
      with (String.length (String y s') - 1) by (simpl; lia).
    cbn [substring append]. f_equal. exact L.
Qed.

End Wrapped.

(** C10: for authors wrapped in braces the stored string stays exactly the
    input, braces included; the rewrite of lines 158-166 belongs to the other
    branch and is not applied. *)
Theorem wrapped_authors_unchanged (pk y m : option Z) (kw raw : string) :
  wrapped raw = true ->
  authors (init pk y m kw raw) = raw
  /\ first_char (authors (init pk y m kw raw)) = Some "{"%char
  /\ last_char (authors (init pk y m kw raw)) = Some "}"%char.
Proof.
  intros W. destruct (init_wrapped pk y m kw raw W) as (_ & -> & _).
  split; [reflexivity|].
  unfold wrapped in W. apply andb_prop in W. destruct W as [_ W].
  destruct (first_char raw) as [a|]; [|discriminate].
  destruct (last_char raw) as [b|]; [|discriminate].
  apply andb_prop in W. destruct W as [Ha Hb].
  apply Ascii.eqb_eq in Ha, Hb. now subst.
Qed.

Lemma wrapped_authors_unchanged_witness :
  authors (init None None None "" "{Special Group Name}") = "{Special Group Name}"
  /\ first_char (authors (init None None None "" "{Special Group Name}")) = Some "{"%char
  /\ last_char (authors (init None None None "" "{Special Group Name}")) = Some "}"%char.
Proof. apply wrapped_authors_unchanged. reflexivity. Defined.

(** C2, as stated, fails: the test of line 83 looks at the first and last
    character of the string as given.  With a leading blank the trimmed
    string is wrapped in braces, yet the input goes through the ordinary
    parsing and abbreviation. *)
Lemma wrapped_test_not_trimmed :
  first_char (strip " {Special Group Name}") = Some "{"%char
  /\ last_char (strip " {Special Group Name}") = Some "}"%char
  /\ authors_list (normalize " {Special Group Name}") = ["{. G. Name}"]
  /\ authors_list (normalize " {Special Group Name}") <> ["Special Group Name"].
Proof. repeat split; try reflexivity. discriminate. Qed.

(** C2, amended: when the authors string itself (untrimmed) starts with a
    brace and ends with one, the authors list is the single text between the
    braces, and no simplified names or BibTeX string are computed. *)
Theorem wrapped_authors_literal (pk y m : option Z) (kw raw : string) :
  wrapped raw = true ->
  exists interior : string,
    raw = "{" ++ interior ++ "}"
    /\ authors_list (init pk y m kw raw) = [interior]
    /\ authors_list_simple (init pk y m kw raw) = None
    /\ authors_bibtex (init pk y m kw raw) = None.
Proof.
  intros W. exists (substring 1 (String.length raw - 2) raw).
  destruct (init_wrapped pk y m kw raw W) as (-> & _ & -> & ->).
  split; [exact (wrapped_shape raw W) | auto].
Qed.

Lemma wrapped_authors_literal_witness :
  exists interior : string,
    "{Special Group Name}" = "{" ++ interior ++ "}"
    /\ authors_list (normalize "{Special Group Name}") = [interior]
    /\ authors_list_simple (normalize "{Special Group Name}") = None
    /\ authors_bibtex (normalize "{Special Group Name}") = None.
Proof. apply wrapped_authors_literal. reflexivity. Defined.

(** ** The rewritten authors string *)

(** C7: for authors that are not wrapped, the rewritten string joins three
    or more names with ", " and puts ", and " before the last, joins two
    names with " and ", and is the name itself when there is one. *)
Theorem rewritten_authors_string :
  (forall (pk y m : option Z) (kw raw : string),
      wrapped raw = false ->
      let l := authors_list (init pk y m kw raw) in
      let s := authors (init pk y m kw raw) in
      ((3 <= List.length l)%nat ->
         s = join ", " (removelast l) ++ ", and " ++ last l "")
      /\ (forall a b, l = [a; b] -> s = a ++ " and " ++ b)
      /\ (forall a, l = [a] -> s = a))
  /\ authors (normalize "Alice Smith, Bob Jones, Carol Lee")
     = "A. Smith, B. Jones, and C. Lee".
Proof.
  split; [|reflexivity].
  intros pk y m kw raw W l s.
  destruct (init_plain pk y m kw raw W) as (El & _ & Es).
  subst l s. rewrite Es, El. clear El Es.
  set (l := map display_name (tokens raw)).
  unfold rewrite_authors. repeat split.
  - intros H. destruct (Nat.ltb_spec 2 (List.length l)); [|lia].
    unfold join at 1. cbn [concat]. reflexivity.
  - intros a b ->. reflexivity.
  - intros a ->. reflexivity.
Qed.

Lemma rewritten_authors_string_witness :
  authors (normalize "Ann, Bob, Cy, Dee") = "Ann, Bob, Cy, and Dee"
  /\ authors (normalize "Ann and Bob") = "Ann and Bob"
  /\ authors (normalize "Ann") = "Ann".
Proof.
  destruct rewritten_authors_string as [H _].
  pose proof (H None None None "" "Ann, Bob, Cy, Dee" eq_refl) as (H3 & _ & _).
  pose proof (H None None None "" "Ann and Bob" eq_refl) as (_ & H2 & _).
  pose proof (H None None None "" "Ann" eq_refl) as (_ & _ & H1).
  split; [|split].
  - etransitivity; [apply H3; vm_compute; lia | reflexivity].
  - exact (H2 "Ann" "Bob" eq_refl).
  - exact (H1 "Ann" eq_refl).
Defined.

(** ** Initials written after the surname *)

Section Initials.

Lemma char_in_ascii_uppercase (c : ascii) :
  char_in c ascii_uppercase = is_upper c.
Proof. destruct c as [[] [] [] [] [] [] [] []]; reflexivity. Qed.

Lemma all_chars_ext (p q : ascii -> bool) (s : string) :
  (forall c, p c = q c) -> all_chars p s = all_chars q s.
Proof.
  intros E. induction s as [|c s IH]; simpl; [reflexivity|].
  now rewrite E, IH.
Qed.

Lemma in_list_In (x : string) (l : list string) :
  in_list x l = true <-> In x l.
Proof.
  unfold in_list. rewrite existsb_exists. split.
  - intros (y & Hy & E). apply String.eqb_eq in E. now subst.
  - intros H. exists x. split; [exact H | apply String.eqb_refl].
Qed.

Lemma in_list_false (x : string) (l : list string) :
  ~ In x l -> in_list x l = false.
Proof.
  intros H. destruct (in_list x l) eqn:E; [|reflexivity].
  apply in_list_In in E. contradiction.
Qed.

Lemma has_initials_true (names : list string) :
  (String.length (last names "") <= 3)%nat ->
  ~ In (last names "") suffixes ->
  all_chars is_upper (last names "") = true ->
  has_initials names = true.
Proof.
  intros Hl Hs Hu. unfold has_initials.
  rewrite (all_chars_ext _ is_upper _ char_in_ascii_uppercase), Hu.
  rewrite (in_list_false _ _ Hs).
  destruct (Nat.leb_spec (String.length (last names "")) 3); [reflexivity | lia].
Qed.

(** A dotted initial is left alone by the abbreviation loop, wherever it
    stands. *)
Lemma abbreviated_dotted (j : nat) (c : ascii) :
  abbreviated j (String c ".") = String c ".".
Proof.
  unfold abbreviated.
  destruct ((j =? 0)%nat && in_list (String c ".") prefixes); [reflexivity|].
  destruct ((0 <? j)%nat && in_list (String c ".") prepositions); reflexivity.
Qed.

Lemma abbreviated_from_app (j : nat) (a b : list string) :
  abbreviated_from j (a ++ b)
  = (abbreviated_from j a ++ abbreviated_from (j + List.length a) b)%list.
Proof.
  revert j; induction a as [|x a IH]; intros j; simpl.
  - now rewrite Nat.add_0_r.
  - rewrite IH. now rewrite Nat.add_succ_r.
Qed.

Lemma abbreviated_from_fixed (j : nat) (l : list string) :
  Forall (fun x => forall i, abbreviated i x = x) l ->
  abbreviated_from j l = l.
Proof.
  intros H; revert j; induction H as [|x l Hx _ IH]; intros j; simpl.
  - reflexivity.
  - now rewrite Hx, IH.
Qed.

Lemma Forall_firstn {A : Type} (P : A -> Prop) (n : nat) (l : list A) :
  Forall P l -> Forall P (firstn n l).
Proof.
  intros H; revert n; induction H as [|x l Hx _ IH]; intros [|n]; simpl; auto.
Qed.

(** Words that the loop leaves alone stay in front, whatever the slice. *)
Lemma abbreviated_fixed_prefix (m : nat) (a b : list string) :
  Forall (fun x => forall i, abbreviated i x = x) a ->
  firstn (List.length a)
    (abbreviated_from 0 (firstn m (a ++ b)) ++ skipn m (a ++ b))%list = a.
Proof.
  intros H. rewrite (firstn_app m a b), (skipn_app m a b).
  rewrite abbreviated_from_app.
  rewrite (abbreviated_from_fixed 0 (firstn m a) (Forall_firstn _ m a H)).
  destruct (Nat.le_gt_cases (List.length a) m) as [L|L].
  - rewrite (firstn_all2 a L), (skipn_all2 a L). simpl.
    rewrite <- app_assoc, firstn_app, Nat.sub_diag, firstn_all. simpl.
    now rewrite app_nil_r.
  - replace (m - List.length a) with 0 by lia. simpl.
    rewrite app_nil_r, app_assoc, firstn_skipn, firstn_app, Nat.sub_diag, firstn_all.
    simpl. now rewrite app_nil_r.
Qed.

Lemma dotted_fixed (w : string) :
  Forall (fun x => forall i, abbreviated i x = x) (dotted w).
Proof.
  unfold dotted. induction (list_ascii_of_string w) as [|c l IH]; simpl.
  - constructor.
  - constructor; [intros i; apply abbreviated_dotted | exact IH].
Qed.

Lemma dotted_length (w : string) : List.length (dotted w) = String.length w.
Proof.
  unfold dotted. rewrite length_map.
  induction w as [|c w IH]; simpl; [reflexivity | now rewrite IH].
Qed.

End Initials.

(** C5: when the last word of a token has at most three characters, is no
    suffix and consists of uppercase ASCII letters, each of its characters
    becomes a word of its own followed by a dot, placed before the remaining
    words; these initials are still the leading words after the abbreviation
    loop.  "Gauss CF" is displayed as "C. F. Gauss". *)
Theorem trailing_initials_moved_to_front :
  (forall names : list string,
      (String.length (last names "") <= 3)%nat ->
      ~ In (last names "") suffixes ->
      all_chars is_upper (last names "") = true ->
      initials names = (dotted (last names "") ++ removelast names)%list
      /\ firstn (String.length (last names "")) (abbreviate_names (initials names))
         = dotted (last names "")
      /\ List.length (abbreviate_names (initials names))
         = String.length (last names "") + List.length (removelast names))
  /\ split " " "Gauss CF" = ["Gauss"; "CF"]
  /\ author_names "Gauss CF" = ["C."; "F."; "Gauss"]
  /\ authors_list (normalize "Gauss CF") = ["C. F. Gauss"].
Proof.
  split; [|repeat split].
  intros names Hl Hs Hu.
  assert (E : initials names = (dotted (last names "") ++ removelast names)%list).
  { unfold initials. now rewrite (has_initials_true names Hl Hs Hu). }
  split; [exact E|]. rewrite E. split.
  - rewrite abbreviate_names_map. cbv zeta.
    rewrite <- (dotted_length (last names "")).
    apply abbreviated_fixed_prefix, dotted_fixed.
  - now rewrite abbreviate_names_length, length_app, dotted_length.
Qed.

Lemma trailing_initials_moved_to_front_witness :
  initials ["Gauss"; "CF"] = ["C."; "F."; "Gauss"]
  /\ firstn 2 (abbreviate_names (initials ["Gauss"; "CF"])) = ["C."; "F."]
  /\ List.length (abbreviate_names (initials ["Gauss"; "CF"])) = 3.
Proof.
  destruct trailing_initials_moved_to_front as [H _].
  apply (H ["Gauss"; "CF"]).
  - simpl. lia.
  - simpl. intuition discriminate.
  - reflexivity.
Defined.

(** ** Hyphenated given names *)

Section Hyphen.

Lemma get_char_in (s : string) (i : nat) (c : ascii) :
  String.get i s = Some c -> char_in c s = true.
Proof.
  revert i; induction s as [|d s IH]; intros i; [destruct i; discriminate|].
  destruct i as [|i]; simpl.
  - intros E. injection E as ->. now rewrite Ascii.eqb_refl.
  - intros E. rewrite (IH i E). apply orb_true_r.
Qed.

Lemma get_lt (s : string) (i : nat) :
  (i < String.length s)%nat -> exists c, String.get i s = Some c.
Proof.
  revert i; induction s as [|d s IH]; intros i H; simpl in H; [lia|].
  destruct i as [|i]; simpl; [eauto | apply IH; lia].
Qed.

(** [find] returns the first index that holds the character. *)
Lemma find_first_index (c : ascii) (s : string) (i : nat) :
  String.get i s = Some c ->
  exists k, find c s = Z.of_nat k /\ (k <= i)%nat /\ String.get k s = Some c.
Proof.
  revert i; induction s as [|d s IH]; intros i; [destruct i; discriminate|].
  cbn [find]. destruct (Ascii.eqb_spec d c) as [->|N].
  - intros _. exists 0. repeat split; simpl; lia.
  - destruct i as [|i]; simpl; [intros E; congruence|].
    intros E. destruct (IH i E) as (k & Ek & Lk & Gk).
    exists (S k). rewrite Ek.
    destruct (Z.ltb_spec (Z.of_nat k) 0); [lia|].
    repeat split; [lia | lia | exact Gk].
Qed.

Lemma dash_not_in_list (name : string) (l : list string) :
  char_in "-" name = true ->
  forallb (fun x => negb (char_in "-" x)) l = true ->
  in_list name l = false.
Proof.
  intros D F. destruct (in_list name l) eqn:E; [|reflexivity].
  apply in_list_In in E. rewrite forallb_forall in F.
  specialize (F name E). rewrite D in F. discriminate.
Qed.

Lemma get_length (s : string) (i : nat) (c : ascii) :
  String.get i s = Some c -> (i < String.length s)%nat.
Proof.
  revert i; induction s as [|d s IH]; intros i; [destruct i; discriminate|].
  destruct i as [|i]; simpl; [lia|]. intros E. specialize (IH i E). lia.
Qed.

(** The abbreviation of a word with a dash inside it (lines 137-140). *)
Lemma abbreviated_dash (name : string) (i : nat) :
  (0 < i)%nat -> (S i < String.length name)%nat ->
  String.get i name = Some "-"%char ->
  exists (c0 c1 : ascii) (k : nat),
    find "-" name = Z.of_nat k
    /\ String.get 0 name = Some c0
    /\ String.get k name = Some "-"%char
    /\ String.get (S k) name = Some c1
    /\ abbreviation name = Some (one c0 ++ ".-" ++ one c1 ++ ".")
    /\ forall j, abbreviated j name = one c0 ++ ".-" ++ one c1 ++ ".".
Proof.
  intros Hi Hl Hg.
  destruct (find_first_index _ _ _ Hg) as (k & Ek & Lk & Gk).
  destruct (get_lt name 0 ltac:(lia)) as (c0 & G0).
  destruct (get_lt name (S k) ltac:(lia)) as (c1 & G1).
  exists c0, c1, k.
  assert (A : abbreviation name = Some (one c0 ++ ".-" ++ one c1 ++ ".")).
  { unfold abbreviation, first_char. rewrite G0, Ek.
    replace (Z.to_nat (Z.of_nat k + 1)) with (S k) by lia. rewrite G1.
    destruct (Z.ltb_spec 2 (Z.of_nat (String.length name))); [|lia].
    destruct (Z.ltb_spec 0 (Z.of_nat k + 1)); [|lia].
    destruct (Z.ltb_spec (Z.of_nat k + 1) (Z.of_nat (String.length name))); [|lia].
    reflexivity. }
  repeat split; try assumption.
  intros j. unfold abbreviated.
  pose proof (get_char_in _ _ _ Hg) as D.
  rewrite (dash_not_in_list name prefixes D eq_refl).
  rewrite (dash_not_in_list name prepositions D eq_refl).
  rewrite !andb_false_r, A. reflexivity.
Qed.

Lemma simple_names_segments (names : list string) :
  (1 < List.length names)%nat ->
  simple_names names
  = map (fun segment => simplify_name (segment ++ " " ++ last names ""))
        (split "-" (hd "" names)).
Proof.
  intros H. unfold simple_names.
  destruct (Nat.ltb_spec 1 (List.length names)); [reflexivity | lia].
Qed.

(** With a single word there is nothing in the abbreviation range. *)
Lemma abbreviate_names_short (names : list string) :
  (List.length names <= 1)%nat -> abbreviate_names names = names.
Proof.
  intros H. rewrite abbreviate_names_map. cbv zeta.
  replace (List.length names - (1 + num_suffixes names)) with 0 by lia.
  reflexivity.
Qed.

End Hyphen.

(** C6: a word of the abbreviation range with a dash at an inner position is
    abbreviated to its first character, ".-", the character after its
    (first) dash and "."; a word list in which a word was abbreviated has
    more than one word, and for such a list the simplified names are one
    folded "<segment> <last word>" per hyphen segment of the first word;
    these are what [__init__] collects.  "Jean-Paul Sartre" is displayed as
    "J.-P. Sartre" with simplified names "j. sartre" and "p. sartre". *)
Theorem hyphenated_abbreviation :
  (forall (name : string) (i : nat),
      (0 < i)%nat -> (S i < String.length name)%nat ->
      String.get i name = Some "-"%char ->
      exists (c0 c1 : ascii) (k : nat),
        find "-" name = Z.of_nat k
        /\ String.get 0 name = Some c0
        /\ String.get k name = Some "-"%char
        /\ String.get (S k) name = Some c1
        /\ forall j, abbreviated j name = one c0 ++ ".-" ++ one c1 ++ ".")
  /\ (forall names : list string,
         abbreviate_names names <> names ->
         (1 < List.length (abbreviate_names names))%nat)
  /\ (forall names : list string,
         (1 < List.length names)%nat ->
         simple_names names
         = map (fun segment =>
                  simplify_name (segment ++ " " ++ last names ""))
               (split "-" (hd "" names)))
  /\ (forall (pk y m : option Z) (kw raw : string),
         wrapped raw = false ->
         authors_list_simple (init pk y m kw raw)
         = Some (flat_map simple_entries (tokens raw)))
  /\ author_names "Jean-Paul Sartre" = ["J.-P."; "Sartre"]
  /\ authors_list (normalize "Jean-Paul Sartre") = ["J.-P. Sartre"]
  /\ authors_list_simple (normalize "Jean-Paul Sartre")
     = Some ["j. sartre"; "p. sartre"].
Proof.
  split; [|split; [|split; [|split; [|repeat split]]]].
  - intros name i Hi Hl Hg.
    destruct (abbreviated_dash name i Hi Hl Hg) as (c0 & c1 & k & H).
    exists c0, c1, k. intuition.
  - intros names H. rewrite abbreviate_names_length.
    destruct (Nat.le_gt_cases (List.length names) 1) as [L|L]; [|exact L].
    contradiction H. now apply abbreviate_names_short.
  - exact simple_names_segments.
  - intros pk y m kw raw W. apply (init_plain pk y m kw raw W).
Qed.

Lemma hyphenated_abbreviation_witness :
  (exists (c0 c1 : ascii) (k : nat),
      find "-" "Jean-Paul" = Z.of_nat k
      /\ String.get 0 "Jean-Paul" = Some c0
      /\ String.get k "Jean-Paul" = Some "-"%char
      /\ String.get (S k) "Jean-Paul" = Some c1
      /\ forall j, abbreviated j "Jean-Paul" = one c0 ++ ".-" ++ one c1 ++ ".")
  /\ simple_names ["J.-P."; "Sartre"] = ["j. sartre"; "p. sartre"]
  /\ authors_list_simple (normalize "Jean-Paul Sartre; Ann Lee")
     = Some ["j. sartre"; "p. sartre"; "a. lee"].
Proof.
  destruct hyphenated_abbreviation as (Ha & _ & Hs & Hi & _).
  split; [|split].
  - apply (Ha "Jean-Paul" 4); [lia | simpl; lia | reflexivity].
  - rewrite (Hs ["J.-P."; "Sartre"]); [reflexivity | simpl; lia].
  - unfold normalize.
    rewrite (Hi None None None "" "Jean-Paul Sartre; Ann Lee" eq_refl).
    reflexivity.
Defined.

(** ** The citation-key scan *)

Section KeyScan.

Lemma lastname_load (r : Row) : exists l, lastname (load r) = Ok l.
Proof.
  unfold lastname, load.
  destruct (authors_list (init (Some (row_id r)) (row_year r) (row_month r)
                               (row_keywords r) (row_authors r))) eqn:E.
  - exfalso. exact (init_authors_list_not_nil _ _ _ _ _ E).
  - simpl. eauto.
Qed.

Lemma siblings_loaded (objects : list Row) (y : option Z) (sn : string)
  (p : Publication) :
  In p (siblings objects y sn) -> exists r, p = load r.
Proof.
  unfold siblings. rewrite in_map_iff. intros (r & E & _). eauto.
Qed.

Lemma key_loop_scan (self : Publication) (sn : string)
  (pre : list Publication) (s : Publication) (post : list Publication) (char : Z) :
  (forall p, In p pre -> exists r, p = load r) ->
  all_before self pre = true ->
  pub_eqb s self = true ->
  key_loop self sn (pre ++ s :: post) char
  = Ok (char + Z.of_nat (List.length (filter (same_surname sn) pre)))%Z.
Proof.
  intros Hl Hb Hs. revert char.
  induction pre as [|p pre IH]; intros char; cbn [app key_loop filter].
  - rewrite Hs. f_equal. simpl. lia.
  - cbn [all_before forallb] in Hb. apply andb_prop in Hb. destruct Hb as [Hp Hb].
    apply negb_true_iff in Hp. rewrite Hp.
    destruct (Hl p (or_introl eq_refl)) as (r & ->).
    destruct (lastname_load r) as (l & El).
    replace (same_surname sn (load r)) with (String.eqb l sn)
      by (unfold same_surname; now rewrite El).
    rewrite El. cbn [bind].
    assert (Hl' : forall q, In q pre -> exists r, q = load r)
      by (intros q Hq; apply Hl; now right).
    destruct (String.eqb l sn); rewrite (IH Hl' Hb); f_equal;
      cbn [List.length]; lia.
Qed.

Lemma key_scan (objects : list Row) (self : Publication)
  (first : string) (rest : list string)
  (pre : list Publication) (s : Publication) (post : list Publication) :
  authors_list self = first :: rest ->
  siblings objects (year self) (last (split " " first) "") = (pre ++ s :: post)%list ->
  pub_eqb s self = true ->
  all_before self pre = true ->
  key objects self
  = key_string (last (split " " first) "") (year self)
      (ord "a" + Z.of_nat (List.length
                             (filter (same_surname (last (split " " first) "")) pre))).
Proof.
  intros Ea Es Hs Hb. unfold key, lastname. rewrite Ea. simpl.
  rewrite Es. rewrite key_loop_scan; [reflexivity | | exact Hb | exact Hs].
  intros p Hp. apply (siblings_loaded objects (year self) (last (split " " first) "")).
  rewrite Es. apply in_or_app. now left.
Qed.

(** [chr] and the concatenation succeed on ASCII code points. *)
Lemma key_string_ascii (sn : string) (y : option Z) (i : Z) :
  (0 <= i < 128)%Z ->
  key_string sn y i = Ok (sn ++ str_year y ++ one (ascii_of_N (Z.to_N i)))
  /\ ord (ascii_of_N (Z.to_N i)) = i.
Proof.
  intros H. unfold key_string, chr, add_byte, ord.
  destruct (Z.leb_spec 0 i); [|lia]. destruct (Z.ltb_spec i 256); [|lia].
  simpl. rewrite N_ascii_embedding by lia.
  destruct (N.ltb_spec (Z.to_N i) 128); [|lia].
  rewrite append_assoc. split; [reflexivity | lia].
Qed.

Lemma letter_of_alphabet (n : nat) :
  (n < 26)%nat ->
  one (ascii_of_N (Z.to_N (ord "a" + Z.of_nat n))) = substring n 1 alphabet.
Proof.
  intros H.
  do 26 (destruct n as [|n]; [reflexivity|]). lia.
Qed.

End KeyScan.

(** C1: for a record with a first author whose siblings (same year, surname
    contained in the stored authors, ordered by month and id) contain the
    record, the key is surname, year and the character reached from 'a' by
    one increment per sibling in front of the record whose first author has
    the same surname; up to 25 such siblings this is the corresponding
    letter of the alphabet.  Three Smith records of 2020 (January, March,
    March) get Smith2020a, Smith2020b and Smith2020c, in whatever order the
    rows are held. *)
Theorem key_counts_earlier_siblings :
  (forall (objects : list Row) (self : Publication)
          (first : string) (rest : list string)
          (pre : list Publication) (s : Publication) (post : list Publication),
      authors_list self = first :: rest ->
      let surname := last (split " " first) "" in
      let n := List.length (filter (same_surname surname) pre) in
      siblings objects (year self) surname = (pre ++ s :: post)%list ->
      pub_eqb s self = true ->
      all_before self pre = true ->
      key objects self = key_string surname (year self) (ord "a" + Z.of_nat n)
      /\ ((n < 26)%nat ->
          key objects self
          = Ok (surname ++ str_year (year self) ++ substring n 1 alphabet)))
  /\ map (fun r => key smiths (load r)) smiths
     = [Ok "Smith2020a"; Ok "Smith2020b"; Ok "Smith2020c"]
  /\ map (fun r => key (rev smiths) (load r)) smiths
     = [Ok "Smith2020a"; Ok "Smith2020b"; Ok "Smith2020c"].
Proof.
  split; [|split; reflexivity].
  intros objects self first rest pre s post Ea surname n Es Hs Hb.
  pose proof (key_scan objects self first rest pre s post Ea Es Hs Hb) as K.
  fold surname in K. fold n in K. split; [exact K|].
  intros Hn. rewrite K.
  destruct (key_string_ascii surname (year self) (ord "a" + Z.of_nat n)) as [-> _].
  - change (ord "a") with 97%Z. lia.
  - now rewrite letter_of_alphabet.
Qed.

Lemma key_counts_earlier_siblings_witness :
  key smiths (load (smith 3 3 "Adam Smith"))
  = key_string "Smith" (Some 2020%Z) (ord "a" + 2)
  /\ key smiths (load (smith 3 3 "Adam Smith")) = Ok "Smith2020c".
Proof.
  destruct key_counts_earlier_siblings as [H _].
  destruct (H smiths (load (smith 3 3 "Adam Smith")) "A. Smith" []
              [load (smith 1 1 "John Smith"); load (smith 2 3 "Jane Smith")]
              (load (smith 3 3 "Adam Smith")) []
              eq_refl eq_refl eq_refl eq_refl) as [K1 K2].
  split; [exact K1|]. apply K2. vm_compute. lia.
Defined.

(** ** Beyond the letter z *)

(** C9, as stated, fails: with 26 siblings of the same surname in front of
    it, the record gets a key that ends in the character after 'z'; nothing
    is raised. *)
Lemma key_after_z_is_returned :
  List.length (filter (same_surname "Smith") (map load (firstn 26 crowd))) = 26
  /\ siblings crowd (Some 2020%Z) "Smith"
     = (map load (firstn 26 crowd) ++ [load (smith 27 1 "John Smith")])%list
  /\ key crowd (load (smith 27 1 "John Smith")) = Ok "Smith2020{".
Proof. repeat split; vm_compute; reflexivity. Qed.

(** C9, amended: the scan has no upper bound.  With 26 to 30 siblings of the
    same surname in front of the record the key is returned as usual and
    its last character is the ASCII character that many places after 'a',
    which lies beyond 'z'. *)
Theorem key_continues_past_z
  (objects : list Row) (self : Publication)
  (first : string) (rest : list string)
  (pre : list Publication) (s : Publication) (post : list Publication) :
  authors_list self = first :: rest ->
  let surname := last (split " " first) "" in
  let n := List.length (filter (same_surname surname) pre) in
  siblings objects (year self) surname = (pre ++ s :: post)%list ->
  pub_eqb s self = true ->
  all_before self pre = true ->
  (26 <= n <= 30)%nat ->
  exists c : ascii,
    key objects self = Ok (surname ++ str_year (year self) ++ one c)
    /\ ord c = (ord "a" + Z.of_nat n)%Z
    /\ (ord "z" < ord c)%Z.
Proof.
  intros Ea surname n Es Hs Hb Hn.
  pose proof (key_scan objects self first rest pre s post Ea Es Hs Hb) as K.
  fold surname in K. fold n in K.
  assert (R : (0 <= ord "a" + Z.of_nat n < 128)%Z)
    by (change (ord "a") with 97%Z; lia).
  destruct (key_string_ascii surname (year self) _ R) as [E O].
  exists (ascii_of_N (Z.to_N (ord "a" + Z.of_nat n))).
  rewrite K, E, O. repeat split.
  change (ord "a") with 97%Z. change (ord "z") with 122%Z. lia.
Qed.

Lemma key_continues_past_z_witness :
  exists c : ascii,
    key crowd (load (smith 27 1 "John Smith")) = Ok ("Smith" ++ "2020" ++ one c)
    /\ ord c = (ord "a" + 26)%Z
    /\ (ord "z" < ord c)%Z.
Proof.
  apply (key_continues_past_z crowd (load (smith 27 1 "John Smith")) "J. Smith" []
           (map load (firstn 26 crowd)) (load (smith 27 1 "John Smith")) []
           eq_refl).
  - vm_compute. reflexivity.
  - reflexivity.
  - vm_compute. reflexivity.
  - vm_compute. lia.
Defined.

(** ** Separators and empty tokens *)

(** C3: the source replaces the "and" separators first and the semicolon
    last (lines 87-90), not in the order of the claim, which is the order of
    the keyword path (lines 76-79).  On "Ann; and Bob" the author path
    leaves two commas and an empty author between the two names, while the
    order of the claim gives one separator. *)
Theorem semicolon_replaced_last :
  author_separators "Ann; and Bob" = "Ann,, Bob"
  /\ keyword_separators "Ann; and Bob" = "Ann, Bob"
  /\ authors_list (normalize "Ann; and Bob") = ["Ann"; ""; "Bob"]
  /\ authors (normalize "Ann; and Bob") = "Ann, , and Bob".
Proof. repeat split. Qed.

Section EmptyTokens.

Lemma rstrip_last (s : string) :
  rstrip s <> "" ->
  exists c, last_char (rstrip s) = Some c /\ is_space c = false.
Proof.
  induction s as [|c s IH]; [intros H; now contradiction H|].
  cbn [rstrip]. destruct (rstrip s) as [|d r] eqn:E.
  - destruct (is_space c) eqn:Sp; [intros H; now contradiction H|].
    intros _. exists c. auto.
  - intros _. destruct IH as (e & L & Se); [discriminate|].
    exists e. split; [exact L | exact Se].
Qed.

Lemma last_cons_cons {A : Type} (x y : A) (l : list A) (d : A) :
  last (x :: y :: l) d = last (y :: l) d.
Proof. reflexivity. Qed.

Lemma split_last_word (s : string) (c : ascii) :
  last_char s = Some c -> c <> " "%char -> last (split " " s) "" <> "".
Proof.
  induction s as [|x s IH]; [discriminate|].
  intros L N. destruct s as [|y s'].
  - simpl in L. injection L as ->.
    cbn [split]. destruct (Ascii.eqb_spec c " "); [contradiction|].
    simpl. discriminate.
  - change (last_char (String x (String y s'))) with (last_char (String y s')) in L.
    specialize (IH L N). cbn [split] in *.
    destruct (Ascii.eqb x " ").
    + destruct (if Ascii.eqb y " " then _ else _) eqn:E; [now contradiction IH|].
      rewrite last_cons_cons. exact IH.
    + destruct (if Ascii.eqb y " " then _ else _) as [|w [|w' ws]] eqn:E.
      * discriminate.
      * simpl. discriminate.
      * rewrite last_cons_cons. rewrite last_cons_cons in IH. exact IH.
Qed.

Lemma join_two_not_empty (sep a b : string) (l : list string) :
  sep <> "" -> join sep (a :: b :: l) <> "".
Proof.
  intros Hs. unfold join. cbn [concat].
  destruct a; simpl; [|discriminate].
  destruct sep; [contradiction | discriminate].
Qed.

Lemma dotted_cons (w : string) :
  w <> "" -> exists c l, dotted w = String c "." :: l.
Proof.
  destruct w as [|c w]; [contradiction|]. intros _.
  exists c, (dotted w). reflexivity.
Qed.

(** The entry of a non-empty stripped token is not empty. *)
Lemma display_name_not_empty (x : string) :
  strip x <> "" -> display_name (strip x) <> "".
Proof.
  intros N. unfold display_name.
  destruct (String.eqb_spec (strip x) ""); [contradiction|].
  destruct (author_names (strip x)) as [|n0 ns] eqn:E; [exact N|].
  destruct (rstrip_last (lstrip x) N) as (c & L & Sp).
  fold (strip x) in L.
  assert (Nc : c <> " "%char) by (intros ->; discriminate).
  pose proof (split_last_word (strip x) c L Nc) as W.
  unfold author_names in E. unfold initials in E.
  set (names := split " " (strip x)) in *.
  destruct (has_initials names) eqn:HI.
  - destruct (dotted_cons _ W) as (d & l & D).
    assert (F : firstn (List.length (dotted (last names "")))
                  (abbreviate_names (dotted (last names "") ++ removelast names))
                = dotted (last names "")).
    { rewrite abbreviate_names_map. cbv zeta.
      apply abbreviated_fixed_prefix, dotted_fixed. }
    fold (dotted (last names "")) in E. rewrite E, D in F. simpl in F.
    injection F as -> _. destruct ns; simpl; discriminate.
  - pose proof (abbreviate_names_length names) as Len. rewrite E in Len.
    destruct ns as [|n1 ns'].
    + destruct names as [|w [|w' ws]] eqn:En; try discriminate.
      rewrite abbreviate_names_map in E. cbv zeta in E.
      replace (List.length [w] - (1 + num_suffixes [w])) with 0 in E
        by (simpl; lia).
      simpl in E. injection E as <-. exact W.
    + apply join_two_not_empty. discriminate.
Qed.

Lemma display_name_empty : display_name "" = "".
Proof. reflexivity. Qed.

Lemma tokens_stripped (raw t : string) :
  In t (tokens raw) -> exists x, t = strip x.
Proof.
  unfold tokens. rewrite in_map_iff. intros (x & E & _). eauto.
Qed.

End EmptyTokens.

(** C4, as stated, fails: the loop skips an empty token with [continue] and
    leaves it in the list. *)
Lemma empty_token_stays_in_list :
  wrapped "Ann,,Bob" = false
  /\ tokens "Ann,,Bob" = ["Ann"; ""; "Bob"]
  /\ authors_list (normalize "Ann,,Bob") = ["Ann"; ""; "Bob"]
  /\ In "" (authors_list (normalize "Ann,,Bob")).
Proof. repeat split. simpl. auto. Qed.

(** C4, amended: for authors that are not wrapped the authors list has one
    entry per token, at the same index; an empty token is skipped by the
    processing and stays as an empty entry, adding no simplified name, and
    the entry of a non-empty token is not empty. *)
Theorem empty_tokens_skipped_not_dropped (pk y m : option Z) (kw raw : string) :
  wrapped raw = false ->
  List.length (authors_list (init pk y m kw raw)) = List.length (tokens raw)
  /\ (forall (i : nat) (t : string),
         nth_error (tokens raw) i = Some t ->
         exists d, nth_error (authors_list (init pk y m kw raw)) i = Some d
                   /\ (d = "" <-> t = ""))
  /\ simple_entries "" = [].
Proof.
  intros W. destruct (init_plain pk y m kw raw W) as (-> & _ & _).
  split; [apply length_map|]. split; [|reflexivity].
  intros i t Ht. exists (display_name t). split.
  - now apply map_nth_error.
  - split.
    + intros D. destruct (tokens_stripped raw t (nth_error_In _ _ Ht)) as (x & ->).
      destruct (String.eqb_spec (strip x) "") as [E|N]; [exact E|].
      exfalso. exact (display_name_not_empty x N D).
    + intros ->. reflexivity.
Qed.

Lemma empty_tokens_skipped_not_dropped_witness :
  List.length (authors_list (normalize "Ann,,Bob")) = List.length (tokens "Ann,,Bob")
  /\ (forall (i : nat) (t : string),
         nth_error (tokens "Ann,,Bob") i = Some t ->
         exists d, nth_error (authors_list (normalize "Ann,,Bob")) i = Some d
                   /\ (d = "" <-> t = ""))
  /\ simple_entries "" = [].
Proof. apply (empty_tokens_skipped_not_dropped None None None "" "Ann,,Bob"). reflexivity. Defined.

(** ** Parsing the rewritten string again *)

Section ReplaceFacts.

Variables (o : ascii) (p new : string).

Lemma replace_from_skip (x s : string) :
  replace_from (String o p) new (String.length x) (x ++ s)
  = replace_from (String o p) new 0 s.
Proof. induction x as [|c x IH]; simpl; [reflexivity | exact IH]. Qed.

Lemma replace_match (s : string) :
  replace (String o p) new (String o p ++ s) = new ++ replace (String o p) new s.
Proof.
  unfold replace. cbn [append replace_from].
  rewrite (prefix_append (String o p) s : prefix (String o p) (String o (p ++ s)) = true).
  cbn [String.length]. rewrite Nat.sub_succ, Nat.sub_0_r.
  now rewrite replace_from_skip.
Qed.

Lemma replace_step (c : ascii) (s : string) :
  prefix (String o p) (String c s) = false ->
  replace (String o p) new (String c s) = String c (replace (String o p) new s).
Proof. unfold replace. cbn [replace_from]. now intros ->. Qed.

Lemma replace_nil : replace (String o p) new "" = "".
Proof. reflexivity. Qed.

Lemma replace_absent (s : string) :
  contains (String o p) s = false -> replace (String o p) new s = s.
Proof.
  induction s as [|c s IH]; [reflexivity|].
  cbn [contains]. intros H. apply orb_false_elim in H. destruct H as [H1 H2].
  rewrite (replace_step c s H1), (IH H2). reflexivity.
Qed.

(** Characters other than the first one of the pattern are copied. *)
Lemma replace_skip_chars (a s : string) :
  char_in o a = false ->
  replace (String o p) new (a ++ s) = a ++ replace (String o p) new s.
Proof.
  induction a as [|c a IH]; [reflexivity|].
  cbn [char_in append]. intros H. apply orb_false_elim in H. destruct H as [H1 H2].
  rewrite replace_step.
  - now rewrite (IH H2).
  - now rewrite prefix_cons, H1.
Qed.

Lemma replace_absent_char (s : string) :
  char_in o s = false -> replace (String o p) new s = s.
Proof.
  intros H. rewrite <- (append_nil_r s) at 1.
  rewrite (replace_skip_chars s "" H). now rewrite replace_nil, append_nil_r.
Qed.

Lemma replace_first_match (a b : string) :
  clear_until (String o p) a (String o p ++ b) = true ->
  replace (String o p) new (a ++ String o p ++ b)
  = a ++ new ++ replace (String o p) new b.
Proof.
  induction a as [|c a IH]; [intros _; apply replace_match|].
  cbn [clear_until]. intros H. apply andb_prop in H. destruct H as [H1 H2].
  apply negb_true_iff in H1. cbn [append] in *.
  rewrite (replace_step c _ H1), (IH H2). reflexivity.
Qed.

End ReplaceFacts.

Section SeparatorFacts.

Lemma prefix_sep (c : ascii) (p a r : string) :
  char_in c p = false -> prefix p (a ++ String c r) = prefix p a.
Proof.
  revert a; induction p as [|x p IH]; intros a H.
  - now destruct a.
  - cbn [char_in] in H. apply orb_false_elim in H. destruct H as [H1 H2].
    destruct a as [|y a]; cbn [append].
    + rewrite prefix_cons. rewrite Ascii.eqb_sym, H1. reflexivity.
    + rewrite !prefix_cons, (IH a H2). reflexivity.
Qed.

Lemma contains_sep (c : ascii) (p a r : string) :
  char_in c p = false ->
  contains p (a ++ String c r) = contains p a || contains p r.
Proof.
  intros H. induction a as [|y a IH]; cbn [append contains].
  - rewrite (prefix_sep c p "" r H : prefix p (String c r) = prefix p "").
    now rewrite orb_false_r.
  - rewrite IH.
    rewrite (prefix_sep c p (String y a) r H
             : prefix p (String y (a ++ String c r)) = prefix p (String y a)).
    now rewrite orb_assoc.
Qed.

Lemma prefix_app_l (p a b : string) :
  prefix p a = true -> prefix p (a ++ b) = true.
Proof.
  revert a; induction p as [|x p IH]; intros a; [now destruct a, b|].
  destruct a as [|y a]; [discriminate|]. cbn [append].
  rewrite !prefix_cons. intros H. apply andb_prop in H. destruct H as [-> H].
  now rewrite (IH a H).
Qed.

Lemma contains_app_l (p a b : string) :
  contains p a = true -> contains p (a ++ b) = true.
Proof.
  induction a as [|y a IH].
  - cbn [contains]. rewrite orb_false_r. intros H.
    apply prefix_nil_r in H. subst p. now destruct b.
  - cbn [contains append]. intros H. apply orb_prop in H. destruct H as [H|H].
    + rewrite (prefix_app_l p (String y a) b H : prefix p (String y (a ++ b)) = true).
      reflexivity.
    + rewrite (IH H). apply orb_true_r.
Qed.

Lemma contains_app_r (p a b : string) :
  contains p b = true -> contains p (a ++ b) = true.
Proof.
  intros H. induction a as [|y a IH]; [exact H|].
  cbn [append contains]. rewrite IH. apply orb_true_r.
Qed.

Lemma split_one (sep : ascii) (a : string) :
  char_in sep a = false -> split sep a = [a].
Proof.
  induction a as [|c a IH]; [reflexivity|].
  cbn [char_in split]. intros H. apply orb_false_elim in H. destruct H as [H1 H2].
  rewrite Ascii.eqb_sym, H1, (IH H2). reflexivity.
Qed.

Lemma split_sep (sep : ascii) (a r : string) :
  char_in sep a = false ->
  split sep (a ++ String sep r) = a :: split sep r.
Proof.
  induction a as [|c a IH]; cbn [append split char_in].
  - intros _. now rewrite Ascii.eqb_refl.
  - intros H. apply orb_false_elim in H. destruct H as [H1 H2].
    rewrite Ascii.eqb_sym, H1, (IH H2). reflexivity.
Qed.

Lemma split_pieces (sep : ascii) (s t : string) :
  In t (split sep s) ->
  char_in sep t = false /\ forall c, char_in c t = true -> char_in c s = true.
Proof.
  revert t; induction s as [|x s IH]; intros t; cbn [split].
  - intros [<-|[]]. auto.
  - destruct (Ascii.eqb_spec x sep) as [->|N].
    + intros [<-|H]; [split; [reflexivity | discriminate]|].
      destruct (IH t H) as [H1 H2]. split; [exact H1|].
      intros c Hc. cbn [char_in]. rewrite (H2 c Hc). apply orb_true_r.
    + destruct (split sep s) as [|w ws] eqn:E.
      * intros [<-|[]]. cbn [one char_in]. split.
        -- rewrite orb_false_r. apply Ascii.eqb_neq. congruence.
        -- intros c Hc. rewrite orb_false_r in Hc. now rewrite Hc.
      * intros [<-|H].
        -- destruct (IH w (or_introl eq_refl)) as [H1 H2]. split.
           ++ cbn [char_in]. rewrite H1, orb_false_r.
              apply Ascii.eqb_neq. congruence.
           ++ intros c Hc. cbn [char_in] in *. apply orb_prop in Hc.
              destruct Hc as [->|Hc]; [reflexivity|].
              rewrite (H2 c Hc). apply orb_true_r.
        -- destruct (IH t (or_intror H)) as [H1 H2]. split; [exact H1|].
           intros c Hc. cbn [char_in]. rewrite (H2 c Hc). apply orb_true_r.
Qed.

Lemma replace_char_gone (c d : ascii) (s : string) :
  c <> d -> char_in c (replace (one c) (one d) s) = false.
Proof.
  intros N. unfold one. induction s as [|x s IH]; [reflexivity|].
  destruct (Ascii.eqb_spec c x) as [<-|M].
  - rewrite (replace_match c "" (String d "") s
             : replace (String c "") (String d "") (String c s) = _).
    cbn [append char_in]. rewrite IH.
    apply Ascii.eqb_neq in N. now rewrite N.
  - rewrite replace_step.
    + cbn [char_in]. rewrite IH. apply Ascii.eqb_neq in M. now rewrite M.
    + rewrite prefix_cons. apply Ascii.eqb_neq in M. now rewrite M.
Qed.

End SeparatorFacts.

Section StripFacts.

Lemma strip_blank (s : string) : strip (String " " s) = strip s.
Proof. reflexivity. Qed.

Lemma rstrip_idem (s : string) : rstrip (rstrip s) = rstrip s.
Proof.
  induction s as [|c s IH]; [reflexivity|].
  cbn [rstrip]. destruct (rstrip s) as [|d r] eqn:E.
  - destruct (is_space c) eqn:Sp; [reflexivity|].
    unfold one. cbn [rstrip]. now rewrite Sp.
  - cbn [rstrip]. cbn [rstrip] in IH. now rewrite IH.
Qed.

Lemma lstrip_head (s : string) :
  lstrip s = "" \/ exists c r, lstrip s = String c r /\ is_space c = false.
Proof.
  induction s as [|c s IH]; [now left|].
  cbn [lstrip]. destruct (is_space c) eqn:Sp; [exact IH|].
  right. eauto.
Qed.

Lemma rstrip_head (c : ascii) (s : string) :
  is_space c = false -> exists r, rstrip (String c s) = String c r.
Proof.
  intros Sp. cbn [rstrip]. destruct (rstrip s); [|eauto].
  rewrite Sp. unfold one. eauto.
Qed.

Lemma strip_idem (x : string) : strip (strip x) = strip x.
Proof.
  unfold strip. destruct (lstrip_head x) as [E|(c & r & E & Sp)]; rewrite E.
  - reflexivity.
  - destruct (rstrip_head c r Sp) as (r' & E'). rewrite E'.
    cbn [lstrip]. rewrite Sp, <- E'. apply rstrip_idem.
Qed.

Lemma lstrip_chars (c : ascii) (s : string) :
  char_in c (lstrip s) = true -> char_in c s = true.
Proof.
  induction s as [|x s IH]; [discriminate|].
  cbn [lstrip]. destruct (is_space x); [|auto].
  intros H. cbn [char_in]. rewrite (IH H). apply orb_true_r.
Qed.

Lemma rstrip_chars (c : ascii) (s : string) :
  char_in c (rstrip s) = true -> char_in c s = true.
Proof.
  induction s as [|x s IH]; [discriminate|].
  cbn [rstrip]. destruct (rstrip s) as [|d r] eqn:E.
  - destruct (is_space x); [discriminate|].
    cbn [one char_in]. rewrite orb_false_r. now intros ->.
  - cbn [char_in] in *. intros H. apply orb_prop in H.
    destruct H as [->|H]; [reflexivity|]. rewrite (IH H). apply orb_true_r.
Qed.

Lemma strip_chars (c : ascii) (s : string) :
  char_in c s = false -> char_in c (strip s) = false.
Proof.
  intros H. destruct (char_in c (strip s)) eqn:E; [|reflexivity].
  apply rstrip_chars, lstrip_chars in E. congruence.
Qed.

(** What every token of an authors string satisfies. *)
Lemma tokens_shape (raw t : string) :
  In t (tokens raw) ->
  char_in "," t = false /\ char_in ";" t = false /\ strip t = t.
Proof.
  unfold tokens. rewrite in_map_iff. intros (x & <- & Hx).
  destruct (split_pieces _ _ _ Hx) as [H1 H2]. repeat split.
  - now apply strip_chars.
  - apply strip_chars. destruct (char_in ";" x) eqn:E; [|reflexivity].
    apply H2 in E. unfold author_separators in E.
    rewrite (replace_char_gone ";" "," _ ltac:(discriminate)
             : char_in ";" (replace ";" "," _) = false) in E.
    discriminate.
  - apply strip_idem.
Qed.

End StripFacts.

Section AndFree.

Lemma prefix_nil_l (s : string) : prefix "" s = true.
Proof. now destruct s. Qed.

Lemma and_free_inside (t : string) :
  and_free t = true -> contains " and " t = false.
Proof.
  unfold and_free. intros H. apply negb_true_iff in H.
  destruct (contains " and " t) eqn:E; [|reflexivity].
  rewrite (contains_app_r " and " " " (t ++ " ")
             (contains_app_l " and " t " " E)) in H.
  discriminate.
Qed.

Lemma and_free_front (t : string) :
  and_free t = true -> contains " and " (" " ++ t) = false.
Proof.
  unfold and_free. intros H. apply negb_true_iff in H.
  destruct (contains " and " (" " ++ t)) eqn:E; [|reflexivity].
  rewrite <- H. symmetry.
  exact (contains_app_l " and " (" " ++ t) " " E).
Qed.

Lemma and_free_back (t : string) :
  and_free t = true -> contains " and " (t ++ " ") = false.
Proof.
  unfold and_free. intros H. apply negb_true_iff in H.
  destruct (contains " and " (t ++ " ")) eqn:E; [|reflexivity].
  rewrite (contains_app_r " and " " " (t ++ " ") E) in H. discriminate.
Qed.

Lemma and_free_start (t : string) :
  and_free t = true -> prefix "and " t = false.
Proof.
  intros H. apply and_free_front in H. cbn [append contains] in H.
  apply orb_false_elim in H. destruct H as [H _].
  rewrite prefix_cons in H. exact H.
Qed.

(** A match that starts inside a name and runs into the " and " that
    follows it would make "and" the last word of the name. *)
Lemma and_straddle (c : ascii) (a b : string) :
  prefix " and " (String c (a ++ " ")) = false ->
  prefix " and " (String c (a ++ " and " ++ b)) = false.
Proof.
  rewrite !prefix_cons.
  destruct (Ascii.eqb " " c); [cbn [andb] | reflexivity].
  destruct a as [|c2 a]; [reflexivity|]. cbn [append]. rewrite !prefix_cons.
  destruct (Ascii.eqb "a" c2); [cbn [andb] | reflexivity].
  destruct a as [|c3 a]; [reflexivity|]. cbn [append]. rewrite !prefix_cons.
  destruct (Ascii.eqb "n" c3); [cbn [andb] | reflexivity].
  destruct a as [|c4 a]; [reflexivity|]. cbn [append]. rewrite !prefix_cons.
  destruct (Ascii.eqb "d" c4); [cbn [andb] | reflexivity].
  destruct a as [|c5 a]; [intros H; discriminate H|]. cbn [append].
  rewrite !prefix_cons, !prefix_nil_l. auto.
Qed.

Lemma and_clear_until (a b : string) :
  contains " and " (a ++ " ") = false ->
  clear_until " and " a (" and " ++ b) = true.
Proof.
  remember (" and " ++ b) as rest eqn:R.
  induction a as [|c a IH]; [reflexivity|].
  cbn [append contains clear_until]. intros H.
  apply orb_false_elim in H. destruct H as [H1 H2].
  rewrite (IH H2), R, (and_straddle c a b H1). reflexivity.
Qed.

End AndFree.

Section Reparse.

Lemma join_cons (sep a : string) (l : list string) :
  l <> [] -> join sep (a :: l) = a ++ sep ++ join sep l.
Proof. destruct l; [contradiction | reflexivity]. Qed.

Lemma oxford_head (a b : string) (l : list string) :
  exists r, oxford a (b :: l) = a ++ String "," r.
Proof.
  destruct l as [|c l].
  - exists (" and " ++ b). reflexivity.
  - exists (" " ++ oxford b (c :: l)). reflexivity.
Qed.

Lemma rewrite_oxford_aux (a : string) (l : list string) :
  l <> [] ->
  join ", " (removelast (a :: l)) ++ ", and " ++ last (a :: l) "" = oxford a l.
Proof.
  revert a; induction l as [|b l IH]; intros a N; [contradiction|].
  destruct l as [|c l']; [reflexivity|].
  change (removelast (a :: b :: c :: l')) with (a :: removelast (b :: c :: l')).
  rewrite join_cons by discriminate.
  rewrite (last_cons_cons a b (c :: l') "").
  rewrite !append_assoc, IH by discriminate. reflexivity.
Qed.

Lemma rewrite_oxford (a b c : string) (l : list string) :
  rewrite_authors (a :: b :: c :: l) = oxford a (b :: c :: l).
Proof.
  unfold rewrite_authors. cbn [List.length Nat.ltb Nat.leb].
  rewrite <- rewrite_oxford_aux by discriminate. reflexivity.
Qed.

Lemma pass_comma_and (a : string) (l : list string) :
  l <> [] ->
  char_in "," a = false ->
  Forall (fun t => char_in "," t = false /\ prefix "and " t = false) l ->
  replace ", and " ", " (oxford a l) = join ", " (a :: l).
Proof.
  revert a; induction l as [|b l IH]; intros a N Ha F; [contradiction|].
  inversion F as [|? ? [Hb Pb] F']; subst.
  destruct l as [|c l'].
  - cbn [oxford].
    rewrite (replace_skip_chars "," " and " ", " a _ Ha).
    rewrite (replace_match "," " and " ", " b).
    rewrite (replace_absent_char "," " and " ", " b Hb). reflexivity.
  - change (oxford a (b :: c :: l')) with (a ++ ", " ++ oxford b (c :: l')).
    rewrite (replace_skip_chars "," " and " ", " a _ Ha).
    change (", " ++ oxford b (c :: l'))
      with (String "," (String " " (oxford b (c :: l')))).
    rewrite replace_step.
    + rewrite replace_step by (now rewrite prefix_cons).
      rewrite IH by (auto; discriminate).
      rewrite (join_cons ", " a (b :: c :: l')) by discriminate. reflexivity.
    + rewrite !prefix_cons. cbn [Ascii.eqb Bool.eqb andb].
      destruct (oxford_head b c l') as (r & ->).
      now rewrite prefix_sep.
Qed.

Lemma pass_commaand (l : list string) :
  Forall (fun t => char_in "," t = false) l ->
  replace ",and " ", " (join ", " l) = join ", " l.
Proof.
  induction l as [|a l IH]; intros F; [reflexivity|].
  inversion F as [|? ? Ha F']; subst.
  destruct l as [|b l'].
  - exact (replace_absent_char "," "and " ", " a Ha).
  - rewrite (join_cons ", " a (b :: l')) by discriminate.
    rewrite (replace_skip_chars "," "and " ", " a _ Ha).
    change (", " ++ join ", " (b :: l'))
      with (String "," (String " " (join ", " (b :: l')))).
    rewrite replace_step by (rewrite !prefix_cons; reflexivity).
    rewrite replace_step by (now rewrite prefix_cons).
    now rewrite (IH F').
Qed.

Lemma and_absent_after_blank (l : list string) :
  Forall (fun t => and_free t = true) l ->
  contains " and " (" " ++ join ", " l) = false.
Proof.
  induction l as [|a l IH]; intros F; [reflexivity|].
  inversion F as [|? ? Ha F']; subst.
  destruct l as [|b l'].
  - exact (and_free_front a Ha).
  - rewrite (join_cons ", " a (b :: l')) by discriminate.
    change (" " ++ a ++ ", " ++ join ", " (b :: l'))
      with ((" " ++ a) ++ String "," (" " ++ join ", " (b :: l'))).
    rewrite contains_sep by reflexivity.
    now rewrite (and_free_front a Ha), (IH F').
Qed.

Lemma and_absent (l : list string) :
  Forall (fun t => and_free t = true) l ->
  contains " and " (join ", " l) = false.
Proof.
  destruct l as [|a [|b l']]; intros F; [reflexivity | |];
    inversion F as [|? ? Ha F']; subst.
  - exact (and_free_inside a Ha).
  - rewrite (join_cons ", " a (b :: l')) by discriminate.
    change (a ++ ", " ++ join ", " (b :: l'))
      with (a ++ String "," (" " ++ join ", " (b :: l'))).
    rewrite contains_sep by reflexivity.
    now rewrite (and_free_inside a Ha), (and_absent_after_blank _ F').
Qed.

Lemma char_in_join (c : ascii) (sep : string) (l : list string) :
  char_in c sep = false ->
  Forall (fun t => char_in c t = false) l ->
  char_in c (join sep l) = false.
Proof.
  intros Hs. induction l as [|a l IH]; intros F; [reflexivity|].
  inversion F as [|? ? Ha F']; subst.
  destruct l as [|b l']; [exact Ha|].
  rewrite (join_cons sep a (b :: l')) by discriminate.
  now rewrite !char_in_append, Ha, Hs, (IH F').
Qed.

Lemma split_join (a : string) (l : list string) :
  char_in "," a = false ->
  Forall (fun t => char_in "," t = false) l ->
  split "," (join ", " (a :: l)) = a :: map (fun t => " " ++ t) l.
Proof.
  revert a; induction l as [|b l IH]; intros a Ha F.
  - exact (split_one "," a Ha).
  - inversion F as [|? ? Hb F']; subst.
    rewrite (join_cons ", " a (b :: l)) by discriminate.
    change (a ++ ", " ++ join ", " (b :: l))
      with (a ++ String "," (" " ++ join ", " (b :: l))).
    rewrite (split_sep "," a _ Ha).
    replace (" " ++ join ", " (b :: l)) with (join ", " ((" " ++ b) :: l))
      by (destruct l; reflexivity).
    rewrite (IH (" " ++ b) Hb F'). reflexivity.
Qed.

Lemma strip_blank_tokens (l : list string) :
  Forall (fun t => strip t = t) l ->
  map strip (map (fun t => " " ++ t) l) = l.
Proof.
  induction 1 as [|t l Ht _ IH]; [reflexivity|].
  cbn [map]. change (strip (" " ++ t)) with (strip t). now rewrite Ht, IH.
Qed.

(** After the first replacement the remaining steps of lines 88-93 give the
    list back. *)
Lemma tokens_of_join (a : string) (l : list string) :
  Forall clean (a :: l) ->
  map strip (split ","
    (replace ";" "," (replace " and " ", " (replace ",and " ", "
       (join ", " (a :: l))))))
  = a :: l.
Proof.
  intros F.
  assert (Fc : Forall (fun t => char_in "," t = false) (a :: l))
    by (eapply Forall_impl; [|exact F]; intros t Ht; apply Ht).
  assert (Fs : Forall (fun t => char_in ";" t = false) (a :: l))
    by (eapply Forall_impl; [|exact F]; intros t Ht; apply Ht).
  assert (Ft : Forall (fun t => strip t = t) (a :: l))
    by (eapply Forall_impl; [|exact F]; intros t Ht; apply Ht).
  assert (Fa : Forall (fun t => and_free t = true) (a :: l))
    by (eapply Forall_impl; [|exact F]; intros t Ht; apply Ht).
  rewrite (pass_commaand _ Fc).
  rewrite (replace_absent " " "and " ", " _ (and_absent _ Fa)).
  rewrite (replace_absent_char ";" "" "," _
             (char_in_join ";" ", " _ eq_refl Fs)).
  inversion Fc as [|? ? Ha Fc']; subst.
  inversion Ft as [|? ? Hta Ft']; subst.
  rewrite (split_join a l Ha Fc'). cbn [map].
  now rewrite Hta, (strip_blank_tokens l Ft').
Qed.

(** The tokens of the rewritten string are the names it was made of. *)
Lemma tokens_rewrite_authors (l : list string) :
  l <> [] -> Forall clean l -> tokens (rewrite_authors l) = l.
Proof.
  intros N F. unfold tokens, author_separators.
  destruct l as [|a [|b [|c l']]]; [contradiction | | |].
  - change (rewrite_authors [a]) with (join ", " [a]).
    inversion F as [|? ? (Ha & _) _]; subst.
    rewrite (replace_absent_char "," " and " ", " _ Ha : replace ", and " ", " (join ", " [a]) = _).
    exact (tokens_of_join a [] F).
  - change (rewrite_authors [a; b]) with (a ++ " and " ++ b).
    inversion F as [|? ? (Ha & Hsa & Hta & Hfa) F']; subst.
    inversion F' as [|? ? (Hb & Hsb & Htb & Hfb) _]; subst.
    assert (Hc : char_in "," (a ++ " and " ++ b) = false)
      by (now rewrite !char_in_append, Ha, Hb).
    rewrite (replace_absent_char "," " and " ", " _ Hc).
    rewrite (replace_absent_char "," "and " ", " _ Hc).
    rewrite (replace_first_match " " "and " ", " a b
               (and_clear_until a b (and_free_back a Hfa))).
    rewrite (replace_absent " " "and " ", " b (and_free_inside b Hfb)).
    change (a ++ ", " ++ b) with (join ", " [a; b]).
    rewrite (replace_absent_char ";" "" "," _
               (char_in_join ";" ", " [a; b] eq_refl
                  (Forall_cons _ Hsa (Forall_cons _ Hsb (Forall_nil _))))).
    rewrite (split_join a [b] Ha (Forall_cons _ Hb (Forall_nil _))).
    cbn [map]. change (strip (" " ++ b)) with (strip b).
    now rewrite Hta, Htb.
  - rewrite rewrite_oxford.
    inversion F as [|? ? (Ha & _) F']; subst.
    rewrite pass_comma_and.
    + exact (tokens_of_join a (b :: c :: l') F).
    + discriminate.
    + exact Ha.
    + eapply Forall_impl; [|exact F']. intros t (Ht & _ & _ & Hf).
      split; [exact Ht | exact (and_free_start t Hf)].
Qed.

Lemma plain_first_char (t : string) :
  plain t = true -> first_char t <> Some "{"%char.
Proof.
  destruct t as [|c t]; [discriminate|].
  unfold plain, first_char. cbn [all_chars String.get].
  intros H E. injection E as ->. discriminate.
Qed.

Lemma wrapped_first_char (s : string) :
  first_char s <> Some "{"%char -> wrapped s = false.
Proof.
  unfold wrapped. destruct (first_char s) as [a|]; [|now rewrite andb_false_r].
  intros H. destruct (Ascii.eqb_spec a "{") as [->|_]; [now contradiction H|].
  destruct (last_char s); now rewrite andb_false_r.
Qed.

Lemma first_char_append (a : string) (c : ascii) (r : string) :
  first_char a <> Some "{"%char -> c <> "{"%char ->
  first_char (a ++ String c r) <> Some "{"%char.
Proof.
  destruct a as [|x a]; [|auto]. unfold first_char. cbn. congruence.
Qed.

End Reparse.

(** ** The key of any record *)

Section KeyOfAnyRecord.

Lemma key_loop_earlier (self : Publication) (sn : string)
  (publications : list Publication) (char : Z) :
  (forall p, In p publications -> exists r, p = load r) ->
  key_loop self sn publications char
  = Ok (char + Z.of_nat (List.length
                           (filter (same_surname sn) (earlier self publications))))%Z.
Proof.
  revert char; induction publications as [|p l IH]; intros char Hl;
    cbn [key_loop earlier].
  - cbn. f_equal. lia.
  - destruct (pub_eqb p self); [cbn; f_equal; lia|].
    destruct (Hl p (or_introl eq_refl)) as (r & ->).
    destruct (lastname_load r) as (w & El).
    cbn [filter].
    replace (same_surname sn (load r)) with (String.eqb w sn)
      by (unfold same_surname; now rewrite El).
    rewrite El. cbn [bind].
    assert (Hl' : forall q, In q l -> exists r, q = load r)
      by (intros q Hq; apply Hl; now right).
    destruct (String.eqb w sn); rewrite (IH _ Hl'); f_equal;
      cbn [List.length]; lia.
Qed.

Lemma key_any (objects : list Row) (self : Publication)
  (first : string) (rest : list string) :
  authors_list self = first :: rest ->
  key objects self
  = key_string (last (split " " first) "") (year self)
      (ord "a"
       + Z.of_nat (List.length
           (filter (same_surname (last (split " " first) ""))
              (earlier self
                 (siblings objects (year self) (last (split " " first) "")))))).
Proof.
  intros Ea. unfold key, lastname. rewrite Ea. cbn [getitem0 bind].
  rewrite key_loop_earlier; [reflexivity|].
  apply siblings_loaded.
Qed.

Lemma earlier_unsaved (self : Publication) (l : list Publication) :
  id self = None -> earlier self l = l.
Proof.
  intros E. induction l as [|p l IH]; [reflexivity|].
  cbn [earlier]. unfold pub_eqb. rewrite E. now rewrite IH.
Qed.

Lemma earlier_length (self : Publication) (l : list Publication) :
  (List.length (earlier self l) <= List.length l)%nat.
Proof.
  induction l as [|p l IH]; [apply Nat.le_refl|].
  cbn [earlier]. destruct (pub_eqb p self); simpl; lia.
Qed.

Lemma insert_row_length (r : Row) (l : list Row) :
  List.length (insert_row r l) = S (List.length l).
Proof.
  induction l as [|h l IH]; [reflexivity|].
  cbn [insert_row]. destruct (month_id_leb r h); simpl; [reflexivity | now rewrite IH].
Qed.

Lemma order_by_month_id_length (l : list Row) :
  List.length (order_by_month_id l) = List.length l.
Proof.
  induction l as [|h l IH]; [reflexivity|].
  unfold order_by_month_id in *. cbn [fold_right].
  now rewrite insert_row_length, IH.
Qed.

Lemma siblings_length (objects : list Row) (y : option Z) (sn : string) :
  (List.length (siblings objects y sn) <= List.length objects)%nat.
Proof.
  unfold siblings. rewrite length_map, order_by_month_id_length.
  apply filter_length_le.
Qed.

Lemma key_string_ok (sn : string) (y : option Z) (char : Z) (k : string) :
  key_string sn y char = Ok k ->
  exists c, k = sn ++ str_year y ++ one c.
Proof.
  unfold key_string, chr, add_byte.
  destruct ((0 <=? char)%Z && (char <? 256)%Z); [|discriminate].
  cbn [bind]. destruct (N_of_ascii _ <? 128)%N; [|discriminate].
  intros E. injection E as <-. eexists. apply append_assoc.
Qed.

Lemma key_string_not_index_error (sn : string) (y : option Z) (char : Z) :
  key_string sn y char <> Raise IndexError.
Proof.
  unfold key_string, chr, add_byte.
  destruct ((0 <=? char)%Z && (char <? 256)%Z); [|discriminate].
  cbn [bind]. destruct (N_of_ascii _ <? 128)%N; discriminate.
Qed.

End KeyOfAnyRecord.

(** X1: a record that has not been saved is equal to no loaded record, so
    the scan of [key] runs over all its siblings: the last character of the
    key is the one reached from 'a' by one step per sibling whose first
    author has the surname of the record. *)
Theorem key_of_unsaved_record (objects : list Row) (self : Publication)
  (first : string) (rest : list string) :
  id self = None ->
  authors_list self = first :: rest ->
  key objects self
  = key_string (last (split " " first) "") (year self)
      (ord "a"
       + Z.of_nat (List.length
           (filter (same_surname (last (split " " first) ""))
              (siblings objects (year self) (last (split " " first) ""))))).
Proof.
  intros Ei Ea. rewrite (key_any objects self first rest Ea).
  now rewrite (earlier_unsaved self _ Ei).
Qed.

Lemma key_of_unsaved_record_witness :
  key smiths (init None (Some 2020%Z) (Some 7%Z) "" "Zoe Smith")
  = key_string "Smith" (Some 2020%Z) (ord "a" + 3).
Proof.
  exact (key_of_unsaved_record smiths
           (init None (Some 2020%Z) (Some 7%Z) "" "Zoe Smith")
           "Z. Smith" [] eq_refl eq_refl).
Defined.

(** X2: for a record built by [__init__], [key] never fails on the indexing
    of an authors list, whatever the table holds; a key that is returned is
    the surname, the year and one more character; and with fewer than 31
    rows in the table a key is returned. *)
Theorem key_of_constructed_record
  (objects : list Row) (pk y m : option Z) (kw raw : string) :
  let self := init pk y m kw raw in
  let surname := last (split " " (hd "" (authors_list self))) "" in
  key objects self <> Raise IndexError
  /\ (forall k, key objects self = Ok k ->
        exists c, k = surname ++ str_year y ++ one c)
  /\ ((List.length objects < 31)%nat -> exists k, key objects self = Ok k).
Proof.
  intros self surname.
  destruct (authors_list self) as [|first rest] eqn:Ea.
  { exfalso. exact (init_authors_list_not_nil pk y m kw raw Ea). }
  pose proof (key_any objects self first rest Ea) as K.
  assert (Ey : year self = y) by (unfold self, init; destruct (wrapped raw); reflexivity).
  subst surname. cbn [hd]. rewrite K, Ey. split; [|split].
  - apply key_string_not_index_error.
  - intros k. apply key_string_ok.
  - intros H. eexists. apply key_string_ascii.
    change (ord "a") with 97%Z.
    set (n := List.length _).
    assert (n <= List.length objects)%nat; [|lia].
    unfold n. etransitivity; [apply filter_length_le|].
    etransitivity; [apply earlier_length | apply siblings_length].
Qed.

Lemma key_of_constructed_record_witness :
  exists k, key smiths (init None (Some 2020%Z) None "" "Zoe Smith") = Ok k.
Proof.
  pose proof (key_of_constructed_record smiths None (Some 2020%Z) None ""
                "Zoe Smith") as H.
  cbv zeta in H. destruct H as (_ & _ & H). apply H. simpl. lia.
Defined.

(** ** Validation *)

Section Clean.

Lemma key_ok_not_empty (objects : list Row) (self : Publication) (k : string) :
  key objects self = Ok k -> exists c k', k = String c k'.
Proof.
  unfold key. destruct (lastname self) as [sn|e]; [|discriminate].
  cbn [bind]. destruct (key_loop _ _ _ _) as [char|e]; [|discriminate].
  cbn [bind]. intros E. apply key_string_ok in E. destruct E as (c & ->).
  destruct sn as [|x sn]; [|cbn; eauto].
  destruct (str_year (year self)) as [|x t]; cbn; [|eauto].
  exists c, "". reflexivity.
Qed.

End Clean.

(** X3: [clean] leaves a citation key that is not empty as it is; the table
    is not consulted then and nothing is raised. *)
Theorem clean_keeps_given_citekey
  (objects : list Row) (self : Publication) (d : Details) (k : string) :
  citekey d = Some k -> k <> "" ->
  exists d', Method.clean objects self d = Ok d' /\ citekey d' = Some k.
Proof.
  intros E N. unfold Method.clean. rewrite E.
  destruct k as [|c k]; [contradiction|].
  cbn [bind]. eexists. split; reflexivity.
Qed.

Lemma clean_keeps_given_citekey_witness :
  exists d',
    Method.clean []
      (normalize "Ann Lee")
      {| citekey := Some "Lee1999x"; title := " T "; journal := "";
         book_title := ""; publisher := ""; institution := "";
         volume := None; number := None; pages := ""; doi := "";
         isbn := ""; issn := "" |} = Ok d'
    /\ citekey d' = Some "Lee1999x".
Proof.
  apply clean_keeps_given_citekey; [reflexivity | discriminate].
Defined.

(** X4: a second [clean] over the same table changes nothing: the key that
    the first call has set is not empty and is kept, and the five texts are
    already stripped. *)
Theorem clean_is_idempotent
  (objects : list Row) (self : Publication) (d d' : Details) :
  Method.clean objects self d = Ok d' ->
  Method.clean objects self d' = Ok d'
  /\ (exists c k, citekey d' = Some (String c k))
  /\ strip (title d') = title d'.
Proof.
  unfold Method.clean.
  destruct (citekey d) as [[|c k]|] eqn:E.
  - destruct (key objects self) as [k|e] eqn:K; [|discriminate].
    cbn [bind]. intros H. injection H as <-. cbn [citekey title journal
      book_title publisher institution volume number pages doi isbn issn].
    destruct (key_ok_not_empty objects self k K) as (c & k' & ->).
    cbn [bind]. rewrite !strip_idem. repeat split; eauto.
  - cbn [bind]. intros H. injection H as <-. cbn [citekey title journal
      book_title publisher institution volume number pages doi isbn issn].
    cbn [bind]. rewrite !strip_idem. repeat split; eauto.
  - destruct (key objects self) as [k|e] eqn:K; [|discriminate].
    cbn [bind]. intros H. injection H as <-. cbn [citekey title journal
      book_title publisher institution volume number pages doi isbn issn].
    destruct (key_ok_not_empty objects self k K) as (c & k' & ->).
    cbn [bind]. rewrite !strip_idem. repeat split; eauto.
Qed.

Lemma clean_is_idempotent_witness :
  let d' := {| citekey := Some "Smith2020d"; title := "On keys";
               journal := "J"; book_title := ""; publisher := "";
               institution := ""; volume := None; number := None;
               pages := ""; doi := ""; isbn := ""; issn := "" |} in
  Method.clean smiths (init None (Some 2020%Z) None "" "Zoe Smith") d' = Ok d'
  /\ (exists c k, citekey d' = Some (String c k))
  /\ strip (title d') = title d'.
Proof.
  intros d'.
  apply (clean_is_idempotent smiths (init None (Some 2020%Z) None "" "Zoe Smith")
           {| citekey := None; title := "  On keys "; journal := "J ";
              book_title := ""; publisher := ""; institution := "";
              volume := None; number := None; pages := ""; doi := "";
              isbn := ""; issn := "" |} d').
  reflexivity.
Defined.

(** ** The short title *)

Section ShortTitle.

Lemma rfind_from_spec (c : ascii) (lo hi : nat) (s : string) :
  forall (i : nat) (found : Z),
    (rfind_from c lo hi i s found = found
     /\ forall j, (lo <= i + j < hi)%nat -> String.get j s <> Some c)
    \/ exists j,
         rfind_from c lo hi i s found = Z.of_nat (i + j)
         /\ (lo <= i + j < hi)%nat
         /\ String.get j s = Some c
         /\ forall j', (j < j')%nat -> (i + j' < hi)%nat ->
                       String.get j' s <> Some c.
Proof.
  induction s as [|d s IH]; intros i found.
  - left. split; [reflexivity|]. intros j _. now destruct j.
  - cbn [rfind_from].
    destruct (IH (S i)
                (if (lo <=? i)%nat && (i <? hi)%nat && Ascii.eqb d c
                 then Z.of_nat i else found))
      as [[E N]|(j & E & R & G & L)].
    + destruct ((lo <=? i)%nat && (i <? hi)%nat && Ascii.eqb d c) eqn:T.
      * right. exists 0.
        apply andb_prop in T. destruct T as [T T3].
        apply andb_prop in T. destruct T as [T1 T2].
        apply Nat.leb_le in T1. apply Nat.ltb_lt in T2.
        apply Ascii.eqb_eq in T3. subst d.
        rewrite Nat.add_0_r. repeat split; try assumption.
        intros [|j'] Hj Hh; [lia|]. cbn [String.get].
        apply N. lia.
      * left. split; [exact E|].
        intros [|j] Hj; cbn [String.get].
        -- rewrite Nat.add_0_r in Hj. intros G. injection G as ->.
           destruct (Nat.leb_spec lo i); [|lia].
           destruct (Nat.ltb_spec i hi); [|lia].
           rewrite Ascii.eqb_refl in T. discriminate.
        -- apply N. lia.
    + right. exists (S j). rewrite E.
      replace (S i + j) with (i + S j) by lia.
      repeat split; try lia; try assumption.
      intros [|j'] Hj Hh; [lia|]. cbn [String.get]. apply L; lia.
Qed.

Lemma rfind_spec (c : ascii) (lo hi : nat) (s : string) :
  (rfind c lo hi s = (-1)%Z
   /\ forall j, (lo <= j < hi)%nat -> String.get j s <> Some c)
  \/ exists j,
       rfind c lo hi s = Z.of_nat j
       /\ (lo <= j < hi)%nat
       /\ String.get j s = Some c
       /\ forall j', (j < j' < hi)%nat -> String.get j' s <> Some c.
Proof.
  unfold rfind.
  destruct (rfind_from_spec c lo hi s 0 (-1)) as [[E N]|(j & E & R & G & L)].
  - left. split; [exact E | exact N].
  - right. exists j. cbn [Nat.add] in *. repeat split; try assumption; try lia.
    intros j' Hj. apply L; lia.
Qed.

Lemma substring_head (k : nat) (s : string) :
  exists rest, s = substring 0 k s ++ rest.
Proof.
  revert s; induction k as [|k IH]; intros s.
  - exists s. now destruct s.
  - destruct s as [|c s]; [now exists ""|].
    destruct (IH s) as (rest & E). exists rest. cbn. now rewrite <- E.
Qed.

Lemma substring_head_length (k : nat) (s : string) :
  (k <= String.length s)%nat -> String.length (substring 0 k s) = k.
Proof.
  revert s; induction k as [|k IH]; intros s H.
  - now destruct s.
  - destruct s as [|c s]; [simpl in H; lia|].
    cbn. rewrite IH; [reflexivity | simpl in H; lia].
Qed.

(** Where [__unicode__] cuts a long title. *)
Lemma unicode_cut (d : Details) :
  (64 <= String.length (title d))%nat ->
  exists k,
    __unicode__ d = substring 0 k (title d) ++ "..."
    /\ (40 <= k <= 61)%nat
    /\ ((k = 61
         /\ forall j, (40 <= j < 62)%nat -> String.get j (title d) <> Some " "%char)
        \/ (String.get k (title d) = Some " "%char
            /\ forall j, (k < j < 62)%nat ->
                         String.get j (title d) <> Some " "%char)).
Proof.
  intros H. unfold __unicode__.
  destruct (Nat.ltb_spec (String.length (title d)) 64); [lia|].
  destruct (rfind_spec " " 40 62 (title d)) as [[E N]|(j & E & R & G & L)];
    rewrite E.
  - exists 61. cbn. repeat split; try lia. left. auto.
  - destruct (Z.ltb_spec (Z.of_nat j) 0); [lia|].
    rewrite Nat2Z.id. exists j. repeat split; try lia. right. auto.
Qed.

End ShortTitle.

(** X5: the text shown for a record has at most 64 characters: a title of
    fewer than 64 characters is shown whole, and a longer one is cut to a
    beginning of 40 to 61 characters followed by three dots. *)
Theorem unicode_title_is_bounded (d : Details) :
  (String.length (__unicode__ d) <= 64)%nat
  /\ ((String.length (title d) < 64)%nat -> __unicode__ d = title d)
  /\ ((64 <= String.length (title d))%nat ->
      exists p rest,
        title d = p ++ rest
        /\ __unicode__ d = p ++ "..."
        /\ (40 <= String.length p <= 61)%nat).
Proof.
  assert (Short : (String.length (title d) < 64)%nat -> __unicode__ d = title d).
  { intros H. unfold __unicode__.
    destruct (Nat.ltb_spec (String.length (title d)) 64); [reflexivity | lia]. }
  assert (Long : (64 <= String.length (title d))%nat ->
      exists p rest,
        title d = p ++ rest
        /\ __unicode__ d = p ++ "..."
        /\ (40 <= String.length p <= 61)%nat).
  { intros H. destruct (unicode_cut d H) as (k & E & R & _).
    destruct (substring_head k (title d)) as (rest & Er).
    exists (substring 0 k (title d)), rest.
    rewrite substring_head_length by lia. auto. }
  split; [|split; assumption].
  destruct (Nat.lt_ge_cases (String.length (title d)) 64) as [H|H].
  - rewrite (Short H). lia.
  - destruct (Long H) as (p & rest & _ & -> & R).
    rewrite length_append. simpl. lia.
Qed.

Lemma unicode_title_is_bounded_witness :
  let d := {| citekey := None;
              title := "A shallow embedding of the author pipeline and of the citation keys";
              journal := ""; book_title := ""; publisher := "";
              institution := ""; volume := None; number := None;
              pages := ""; doi := ""; isbn := ""; issn := "" |} in
  exists p rest,
    title d = p ++ rest
    /\ __unicode__ d = p ++ "..."
    /\ (40 <= String.length p <= 61)%nat.
Proof.
  intros d. apply (unicode_title_is_bounded d). vm_compute. lia.
Defined.

(** X6: a long title is cut at its last blank among the indices 40 to 61,
    the blank itself left out, and after 61 characters when there is no
    blank there. *)
Theorem unicode_title_cut_at_last_blank (d : Details) :
  (64 <= String.length (title d))%nat ->
  exists k,
    __unicode__ d = substring 0 k (title d) ++ "..."
    /\ (40 <= k <= 61)%nat
    /\ ((k = 61
         /\ forall j, (40 <= j < 62)%nat -> String.get j (title d) <> Some " "%char)
        \/ (String.get k (title d) = Some " "%char
            /\ forall j, (k < j < 62)%nat ->
                         String.get j (title d) <> Some " "%char)).
Proof. exact (unicode_cut d). Qed.

Lemma unicode_title_cut_at_last_blank_witness :
  let d := {| citekey := None;
              title := "A shallow embedding of the author pipeline and of the citation keys";
              journal := ""; book_title := ""; publisher := "";
              institution := ""; volume := None; number := None;
              pages := ""; doi := ""; isbn := ""; issn := "" |} in
  exists k,
    __unicode__ d = substring 0 k (title d) ++ "..."
    /\ (40 <= k <= 61)%nat
    /\ ((k = 61
         /\ forall j, (40 <= j < 62)%nat -> String.get j (title d) <> Some " "%char)
        \/ (String.get k (title d) = Some " "%char
            /\ forall j, (k < j < 62)%nat ->
                         String.get j (title d) <> Some " "%char)).
Proof.
  intros d. apply (unicode_title_cut_at_last_blank d). vm_compute. lia.
Defined.

(** ** Month names *)

Section Months.

Lemma month_long_loop_enumerate (l : list string) (start k : Z) :
  month_long_loop (enumerate start l) (Some k)
  = if ((start <=? k) && (k <? start + Z.of_nat (List.length l)))%Z
    then nth (Z.to_nat (k - start)) l ""
    else "".
Proof.
  revert start; induction l as [|x l IH]; intros start.
  - cbn. destruct ((start <=? k)%Z && (k <? start + 0)%Z) eqn:E; [|reflexivity].
    apply andb_prop in E. destruct E as [E1 E2].
    apply Z.leb_le in E1. apply Z.ltb_lt in E2. lia.
  - cbn [enumerate month_long_loop option_Z_eqb]. rewrite IH.
    destruct (Z.eqb_spec start k) as [->|N].
    + destruct (Z.leb_spec k k); [|lia].
      destruct (Z.ltb_spec k (k + Z.of_nat (List.length (x :: l))));
        [|cbn [List.length] in *; lia].
      now rewrite Z.sub_diag.
    + cbn [List.length].
      destruct (Z.leb_spec (start + 1) k), (Z.leb_spec start k); try lia;
        cbn [andb]; [|reflexivity].
      destruct (Z.ltb_spec k (start + 1 + Z.of_nat (List.length l))),
               (Z.ltb_spec k (start + Z.of_nat (S (List.length l)))); try lia;
        [|reflexivity].
      replace (Z.to_nat (k - start)) with (S (Z.to_nat (k - (start + 1)))) by lia.
      reflexivity.
Qed.

Lemma dict_get_loop (d : list (Z * string)) (m : option Z) :
  dict_get d m "" = month_long_loop d m.
Proof.
  induction d as [|[k v] d IH]; [reflexivity|].
  cbn [dict_get month_long_loop]. now rewrite IH.
Qed.

Lemma month_long_loop_none (d : list (Z * string)) :
  month_long_loop d None = "".
Proof. induction d as [|[k v] d IH]; [reflexivity | exact IH]. Qed.

Lemma month_long_loop_entry (names : list string) (m : option Z) :
  month_long_loop (enumerate 1 (tl names)) m = month_entry names m.
Proof.
  destruct m as [k|]; [|apply month_long_loop_none].
  rewrite month_long_loop_enumerate. unfold month_entry.
  destruct names as [|n0 names].
  - cbn [tl List.length]. change (Z.of_nat 0) with 0%Z.
    destruct (Z.leb_spec 1 k), (Z.ltb_spec k (1 + 0)), (Z.ltb_spec k 0);
      try lia; reflexivity.
  - cbn [tl List.length].
    replace (1 + Z.of_nat (List.length names))%Z
      with (Z.of_nat (S (List.length names))) by lia.
    destruct ((1 <=? k)%Z && (k <? Z.of_nat (S (List.length names)))%Z) eqn:E;
      [|reflexivity].
    apply andb_prop in E. destruct E as [E1 _]. apply Z.leb_le in E1.
    replace (Z.to_nat k) with (S (Z.to_nat (k - 1))) by lia. reflexivity.
Qed.

End Months.

(** X7: [month_long] and [month_bibtex] return the entry of their calendar
    sequence at the index of the month when the month is one of its indices
    from 1 on, and the empty text for a record without a month and for a
    month that is zero, negative or past the end. *)
Theorem month_names_by_index (names : list string) (self : Publication) :
  month_long names self = month_entry names (month self)
  /\ month_bibtex names self = month_entry names (month self).
Proof.
  unfold month_long, month_bibtex, MONTH_CHOICES, MONTH_BIBTEX.
  rewrite dict_get_loop. split; apply month_long_loop_entry.
Qed.

(** ** Escaped authors *)

Section Escaped.

Lemma lower_length (s : string) : String.length (lower s) = String.length s.
Proof. induction s as [|c s IH]; [reflexivity | cbn; now rewrite IH]. Qed.

Lemma replace_char_length (c d : ascii) (s : string) :
  String.length (replace (one c) (one d) s) = String.length s.
Proof.
  unfold one. induction s as [|x s IH]; [reflexivity|].
  destruct (Ascii.eqb_spec c x) as [<-|M].
  - rewrite (replace_match c "" (String d "") s
             : replace (String c "") (String d "") (String c s) = _).
    cbn [append String.length]. now rewrite IH.
  - rewrite replace_step.
    + cbn [String.length]. now rewrite IH.
    + rewrite prefix_cons. apply Ascii.eqb_neq in M. now rewrite M.
Qed.

End Escaped.

(** X8: [authors_escaped] pairs every entry of the authors list, in order,
    with a text of the same length that contains no blank. *)
Theorem authors_escaped_no_blank (self : Publication) :
  map fst (authors_escaped self) = authors_list self
  /\ Forall (fun pair =>
               char_in " " (snd pair) = false
               /\ String.length (snd pair) = String.length (fst pair))
            (authors_escaped self).
Proof.
  unfold authors_escaped. split.
  - rewrite map_map. cbn [fst]. apply map_id.
  - apply Forall_forall. intros pair H. apply in_map_iff in H.
    destruct H as (a & <- & _). cbn [fst snd]. split.
    + exact (replace_char_gone " " "+" (lower a) ltac:(discriminate)).
    + etransitivity; [exact (replace_char_length " " "+" (lower a))|].
      apply lower_length.
Qed.

(** ** Keywords *)

Section Keywords.

Lemma lower_char_fixed (c : ascii) : lower_fixed (lower_char c) = true.
Proof. destruct c as [[] [] [] [] [] [] [] []]; reflexivity. Qed.

Lemma is_space_lower (c : ascii) : is_space (lower_char c) = is_space c.
Proof. destruct c as [[] [] [] [] [] [] [] []]; reflexivity. Qed.

Lemma comma_lower (c : ascii) :
  Ascii.eqb "," (lower_char c) = Ascii.eqb "," c.
Proof. destruct c as [[] [] [] [] [] [] [] []]; reflexivity. Qed.

Lemma semicolon_lower (c : ascii) :
  Ascii.eqb ";" (lower_char c) = Ascii.eqb ";" c.
Proof. destruct c as [[] [] [] [] [] [] [] []]; reflexivity. Qed.

Lemma lstrip_lower (s : string) : lstrip (lower s) = lower (lstrip s).
Proof.
  induction s as [|c s IH]; [reflexivity|].
  cbn [lower lstrip]. rewrite is_space_lower.
  destruct (is_space c); [exact IH | reflexivity].
Qed.

Lemma rstrip_lower (s : string) : rstrip (lower s) = lower (rstrip s).
Proof.
  induction s as [|c s IH]; [reflexivity|].
  cbn [lower rstrip]. rewrite IH, is_space_lower.
  destruct (rstrip s); cbn [lower]; [|reflexivity].
  destruct (is_space c); reflexivity.
Qed.

Lemma strip_lower (s : string) : strip (lower s) = lower (strip s).
Proof. unfold strip. now rewrite lstrip_lower, rstrip_lower. Qed.

Lemma comma_in_lower (s : string) : char_in "," (lower s) = char_in "," s.
Proof.
  induction s as [|c s IH]; [reflexivity|].
  cbn [lower char_in]. now rewrite comma_lower, IH.
Qed.

Lemma semicolon_in_lower (s : string) : char_in ";" (lower s) = char_in ";" s.
Proof.
  induction s as [|c s IH]; [reflexivity|].
  cbn [lower char_in]. now rewrite semicolon_lower, IH.
Qed.

Lemma lower_is_fixed (s : string) : all_chars lower_fixed (lower s) = true.
Proof.
  induction s as [|c s IH]; [reflexivity|].
  cbn [lower all_chars]. now rewrite lower_char_fixed, IH.
Qed.

Lemma lower_of_fixed (s : string) :
  all_chars lower_fixed s = true -> lower s = s.
Proof.
  induction s as [|c s IH]; [reflexivity|].
  cbn [all_chars lower]. intros H. apply andb_prop in H. destruct H as [H1 H2].
  apply Ascii.eqb_eq in H1. now rewrite H1, (IH H2).
Qed.

Lemma lower_idem (s : string) : lower (lower s) = lower s.
Proof. apply lower_of_fixed, lower_is_fixed. Qed.

Lemma all_chars_append (p : ascii -> bool) (a b : string) :
  all_chars p (a ++ b) = all_chars p a && all_chars p b.
Proof.
  induction a as [|c a IH]; [reflexivity|].
  cbn [append all_chars]. now rewrite IH, andb_assoc.
Qed.

Lemma all_chars_join (p : ascii -> bool) (sep : string) (l : list string) :
  all_chars p sep = true ->
  Forall (fun t => all_chars p t = true) l ->
  all_chars p (join sep l) = true.
Proof.
  intros Hs. induction l as [|a l IH]; intros F; [reflexivity|].
  inversion F as [|? ? Ha F']; subst.
  destruct l as [|b l']; [exact Ha|].
  rewrite (join_cons sep a (b :: l')) by discriminate.
  now rewrite !all_chars_append, Ha, Hs, (IH F').
Qed.

(** The keyword pieces of lines 76-80. *)
Lemma init_keywords (pk y m : option Z) (kw raw : string) :
  keywords (init pk y m kw raw)
  = join ", " (map (fun s => lower (strip s))
                   (split "," (keyword_separators kw))).
Proof. unfold init. destruct (wrapped raw); reflexivity. Qed.

Lemma keyword_pieces_shape (kw : string) :
  Forall (fun t => char_in "," t = false /\ strip t = t
                   /\ all_chars lower_fixed t = true)
    (map (fun s => lower (strip s)) (split "," (keyword_separators kw))).
Proof.
  apply Forall_forall. intros t H. apply in_map_iff in H.
  destruct H as (x & <- & Hx).
  destruct (split_pieces _ _ _ Hx) as [H1 _]. repeat split.
  - rewrite comma_in_lower. now apply strip_chars.
  - now rewrite <- strip_lower, strip_idem.
  - apply lower_is_fixed.
Qed.

Lemma split_join_strip (l : list string) :
  l <> [] ->
  Forall (fun t => char_in "," t = false /\ strip t = t) l ->
  map strip (split "," (join ", " l)) = l.
Proof.
  intros N F. destruct l as [|a l]; [contradiction|].
  inversion F as [|? ? [Ha Hta] F']; subst.
  rewrite (split_join a l Ha)
    by (eapply Forall_impl; [|exact F']; intros t Ht; apply Ht).
  cbn [map]. rewrite Hta. f_equal. apply strip_blank_tokens.
  eapply Forall_impl; [|exact F']. intros t Ht. apply Ht.
Qed.

Lemma replace_from_keeps_absent (c : ascii) (old new : string) (s : string) :
  char_in c new = false ->
  forall skip, char_in c s = false ->
               char_in c (replace_from old new skip s) = false.
Proof.
  intros Hn. induction s as [|x s IH]; intros skip H; [reflexivity|].
  cbn [char_in] in H. apply orb_false_elim in H. destruct H as [H1 H2].
  cbn [replace_from]. destruct skip as [|k]; [|now apply IH].
  destruct (prefix old (String x s)).
  - rewrite char_in_append, Hn. now apply IH.
  - cbn [char_in]. rewrite H1. now apply IH.
Qed.

Lemma replace_keeps_absent (c o : ascii) (p new s : string) :
  char_in c new = false -> char_in c s = false ->
  char_in c (replace (String o p) new s) = false.
Proof. intros Hn H. now apply replace_from_keeps_absent. Qed.

Lemma keyword_separators_no_semicolon (kw : string) :
  char_in ";" (keyword_separators kw) = false.
Proof.
  unfold keyword_separators.
  do 3 (apply replace_keeps_absent; [reflexivity|]).
  exact (replace_char_gone ";" "," kw ltac:(discriminate)).
Qed.

Lemma keyword_join_no_semicolon (kw : string) :
  char_in ";"
    (join ", " (map (fun s => lower (strip s))
                    (split "," (keyword_separators kw)))) = false.
Proof.
  apply char_in_join; [reflexivity|].
  apply Forall_forall. intros t H. apply in_map_iff in H.
  destruct H as (x & <- & Hx).
  rewrite semicolon_in_lower. apply strip_chars.
  destruct (char_in ";" x) eqn:E; [|reflexivity].
  apply (proj2 (split_pieces _ _ _ Hx)) in E.
  now rewrite keyword_separators_no_semicolon in E.
Qed.

End Keywords.

(** X9: the keywords that [keywords_escaped] lists for a record built by
    [__init__] are the pieces that [__init__] joined: the stripped and
    lowercased parts of the keyword text between its separators, in order,
    each paired with its quoted form. *)
Theorem keywords_escaped_round_trip
  (urlquote_plus : string -> string) (pk y m : option Z) (kw raw : string) :
  keywords_escaped urlquote_plus (init pk y m kw raw)
  = map (fun piece => (piece, urlquote_plus piece))
        (map (fun s => lower (strip s)) (split "," (keyword_separators kw))).
Proof.
  unfold keywords_escaped. rewrite init_keywords.
  set (pieces := map (fun s => lower (strip s)) (split "," (keyword_separators kw))).
  rewrite <- (split_join_strip pieces) at 2.
  - now rewrite map_map.
  - unfold pieces. intros E. apply map_eq_nil in E. exact (split_not_nil _ _ E).
  - eapply Forall_impl; [|exact (keyword_pieces_shape kw)].
    intros t (H1 & H2 & _). auto.
Qed.

(** X10: the keywords of a record built by [__init__] hold no character
    that [lower] would change and no semicolon. *)
Theorem keywords_are_lowercase (pk y m : option Z) (kw raw : string) :
  lower (keywords (init pk y m kw raw)) = keywords (init pk y m kw raw)
  /\ char_in ";" (keywords (init pk y m kw raw)) = false.
Proof.
  rewrite init_keywords. split.
  - apply lower_of_fixed, all_chars_join; [reflexivity|].
    eapply Forall_impl; [|exact (keyword_pieces_shape kw)].
    intros t (_ & _ & H). exact H.
  - apply keyword_join_no_semicolon.
Qed.

Section KeywordsReload.

Lemma and_not_first_in_join (b : string) (l : list string) :
  char_in "," b = false -> prefix "and " b = false ->
  prefix "and " (join ", " (b :: l)) = false.
Proof.
  intros Hc Hp. destruct l as [|c l']; [exact Hp|].
  rewrite (join_cons ", " b (c :: l')) by discriminate.
  change (b ++ ", " ++ join ", " (c :: l'))
    with (b ++ String "," (" " ++ join ", " (c :: l'))).
  now rewrite prefix_sep.
Qed.

Lemma pass_comma_and_join (l : list string) :
  Forall (fun t => char_in "," t = false /\ prefix "and " t = false) l ->
  replace ", and " ", " (join ", " l) = join ", " l.
Proof.
  induction l as [|a l IH]; intros F; [reflexivity|].
  inversion F as [|? ? [Ha _] F']; subst.
  destruct l as [|b l'].
  - exact (replace_absent_char "," " and " ", " a Ha).
  - rewrite (join_cons ", " a (b :: l')) by discriminate.
    rewrite (replace_skip_chars "," " and " ", " a _ Ha).
    change (", " ++ join ", " (b :: l'))
      with (String "," (String " " (join ", " (b :: l')))).
    rewrite replace_step.
    + rewrite replace_step by (now rewrite prefix_cons).
      now rewrite (IH F').
    + rewrite !prefix_cons. cbn [Ascii.eqb Bool.eqb andb].
      inversion F' as [|? ? [Hb Pb] _]; subst.
      now apply and_not_first_in_join.
Qed.

End KeywordsReload.

(** X11: when no keyword of a record has "and" as a word of its own, the
    keyword text that [__init__] has produced is left as it is by the
    [__init__] of a later load. *)
Theorem keywords_stable_on_reload
  (pk y m pk' y' m' : option Z) (kw raw raw' : string) :
  forallb and_free
    (map (fun s => lower (strip s)) (split "," (keyword_separators kw))) = true ->
  keywords (init pk' y' m' (keywords (init pk y m kw raw)) raw')
  = keywords (init pk y m kw raw).
Proof.
  intros H. rewrite forallb_forall in H.
  pose proof (keyword_join_no_semicolon kw) as Hs.
  rewrite (init_keywords pk' y' m'), (init_keywords pk y m kw raw).
  set (pieces := map (fun s => lower (strip s)) (split "," (keyword_separators kw))) in *.
  pose proof (keyword_pieces_shape kw) as Sh. fold pieces in Sh.
  assert (Fc : Forall (fun t => char_in "," t = false) pieces)
    by (eapply Forall_impl; [|exact Sh]; intros t Ht; apply Ht).
  assert (Fa : Forall (fun t => and_free t = true) pieces)
    by (apply Forall_forall; exact H).
  assert (Fp : Forall (fun t => char_in "," t = false /\ prefix "and " t = false)
                 pieces).
  { apply Forall_forall. intros t Ht. split.
    - exact (proj1 (Forall_forall _ _) Fc t Ht).
    - apply and_free_start, H, Ht. }
  assert (Sep : keyword_separators (join ", " pieces) = join ", " pieces).
  { unfold keyword_separators.
    rewrite (replace_absent_char ";" "" "," _ Hs).
    rewrite (pass_comma_and_join _ Fp), (pass_commaand _ Fc).
    exact (replace_absent " " "and " ", " _ (and_absent _ Fa)). }
  rewrite Sep. f_equal.
  rewrite <- (map_map strip lower).
  rewrite split_join_strip.
  - rewrite <- (map_id pieces) at 2. apply map_ext_in.
    intros t Ht. apply lower_of_fixed.
    exact (proj2 (proj2 (proj1 (Forall_forall _ _) Sh t Ht))).
  - unfold pieces. intros E. apply map_eq_nil in E. exact (split_not_nil _ _ E).
  - eapply Forall_impl; [|exact Sh]. intros t (H1 & H2 & _). auto.
Qed.

Lemma keywords_stable_on_reload_witness :
  keywords (init None None None
              (keywords (init None None None "Logic; Proof and Types" "Ann")) "Ann")
  = keywords (init None None None "Logic; Proof and Types" "Ann").
Proof. apply keywords_stable_on_reload. reflexivity. Defined.

(** Without the condition a second load can drop a keyword's first word. *)
Example keywords_reload_drops_and :
  keywords (init None None None "x and and y" "Ann") = "x, and y"
  /\ keywords (init None None None "x, and y" "Ann") = "x, y".
Proof. split; reflexivity. Qed.

(** ** Simplified names *)

Section Simplify.

Lemma all_chars_impl (p q : ascii -> bool) (s : string) :
  (forall c, p c = true -> q c = true) ->
  all_chars p s = true -> all_chars q s = true.
Proof.
  intros I. induction s as [|c s IH]; [reflexivity|].
  cbn [all_chars]. intros H. apply andb_prop in H. destruct H as [H1 H2].
  now rewrite (I c H1), (IH H2).
Qed.

Lemma all_chars_absent (d : ascii) (s : string) :
  all_chars (fun c => negb (Ascii.eqb d c)) s = true -> char_in d s = false.
Proof.
  induction s as [|c s IH]; [reflexivity|].
  cbn [all_chars char_in]. intros H. apply andb_prop in H. destruct H as [H1 H2].
  apply negb_true_iff in H1. now rewrite H1, (IH H2).
Qed.

(** Replacing one character by a text: what holds of the text and of the
    other characters holds of the result, and the character is gone. *)
Lemma replace_from_char (P : ascii -> bool) (d : ascii) (new s : string) :
  all_chars (fun c => P c && negb (Ascii.eqb d c)) new = true ->
  all_chars P s = true ->
  forall skip,
    all_chars (fun c => P c && negb (Ascii.eqb d c))
      (replace_from (one d) new skip s) = true.
Proof.
  intros Hn. induction s as [|x s IH]; intros H skip; [reflexivity|].
  cbn [all_chars] in H. apply andb_prop in H. destruct H as [H1 H2].
  cbn [replace_from]. destruct skip as [|k]; [|now apply IH].
  unfold one at 1. rewrite prefix_cons, prefix_nil_l, andb_true_r.
  destruct (Ascii.eqb d x) eqn:E.
  - rewrite all_chars_append, Hn. now apply IH.
  - cbn [all_chars]. rewrite H1, E. now apply IH.
Qed.

Lemma replace_char (P : ascii -> bool) (d : ascii) (new s : string) :
  all_chars (fun c => P c && negb (Ascii.eqb d c)) new = true ->
  all_chars P s = true ->
  all_chars (fun c => P c && negb (Ascii.eqb d c)) (replace (one d) new s) = true.
Proof. intros Hn H. exact (replace_from_char P d new s Hn H 0). Qed.

(** The text after the four replacements of [simplify_name]. *)
Lemma simplify_name_chars (name : string) :
  all_chars
    (fun c => lower_fixed c && negb (Ascii.eqb "228" c)
              && negb (Ascii.eqb "246" c) && negb (Ascii.eqb "252" c)
              && negb (Ascii.eqb "223" c))
    (simplify_name name) = true.
Proof.
  unfold simplify_name, a_umlaut, o_umlaut, u_umlaut, sharp_s.
  apply replace_char; [reflexivity|].
  apply replace_char; [reflexivity|].
  apply replace_char; [reflexivity|].
  apply replace_char; [reflexivity|].
  apply lower_is_fixed.
Qed.

End Simplify.

(** X12: a simplified name holds none of the four folded letters and no
    character that [lower] would change, and simplifying it again leaves it
    as it is. *)
Theorem simplify_name_is_idempotent (name : string) :
  simplify_name (simplify_name name) = simplify_name name
  /\ lower (simplify_name name) = simplify_name name
  /\ all_chars (fun c => negb (char_in c folded_letters)) (simplify_name name)
     = true.
Proof.
  pose proof (simplify_name_chars name) as H.
  set (out := simplify_name name) in *.
  assert (Hl : all_chars lower_fixed out = true).
  { revert H. apply all_chars_impl. intros c Hc.
    repeat (apply andb_prop in Hc; destruct Hc as [Hc _]). exact Hc. }
  assert (Ha : char_in "228" out = false).
  { apply all_chars_absent. revert H. apply all_chars_impl. intros c Hc.
    do 3 (apply andb_prop in Hc; destruct Hc as [Hc _]).
    apply andb_prop in Hc. now destruct Hc. }
  assert (Ho : char_in "246" out = false).
  { apply all_chars_absent. revert H. apply all_chars_impl. intros c Hc.
    do 2 (apply andb_prop in Hc; destruct Hc as [Hc _]).
    apply andb_prop in Hc. now destruct Hc. }
  assert (Hu : char_in "252" out = false).
  { apply all_chars_absent. revert H. apply all_chars_impl. intros c Hc.
    apply andb_prop in Hc; destruct Hc as [Hc _].
    apply andb_prop in Hc. now destruct Hc. }
  assert (Hs : char_in "223" out = false).
  { apply all_chars_absent. revert H. apply all_chars_impl. intros c Hc.
    apply andb_prop in Hc. now destruct Hc. }
  split; [|split].
  - unfold simplify_name at 1. rewrite (lower_of_fixed out Hl).
    unfold a_umlaut, o_umlaut, u_umlaut, sharp_s, one.
    rewrite (replace_absent_char "228" "" "ae" out Ha).
    rewrite (replace_absent_char "246" "" "oe" out Ho).
    rewrite (replace_absent_char "252" "" "ue" out Hu).
    exact (replace_absent_char "223" "" "ss" out Hs).
  - exact (lower_of_fixed out Hl).
  - revert H. apply all_chars_impl. intros c Hc.
    apply andb_prop in Hc. destruct Hc as [Hc H4].
    apply andb_prop in Hc. destruct Hc as [Hc H3].
    apply andb_prop in Hc. destruct Hc as [Hc H2].
    apply andb_prop in Hc. destruct Hc as [_ H1].
    unfold folded_letters, a_umlaut, o_umlaut, u_umlaut, sharp_s, one.
    cbn [append char_in].
    rewrite (Ascii.eqb_sym c "228"), (Ascii.eqb_sym c "246"),
      (Ascii.eqb_sym c "252"), (Ascii.eqb_sym c "223").
    apply negb_true_iff in H1, H2, H3, H4. now rewrite H1, H2, H3, H4.
Qed.

(** ** What the abbreviation loop leaves alone *)

Section Surname.

Lemma last_skipn {A : Type} (m : nat) (l : list A) (d : A) :
  (m < List.length l)%nat -> last (skipn m l) d = last l d.
Proof.
  revert l; induction m as [|m IH]; intros l H; [reflexivity|].
  destruct l as [|x l]; [simpl in H; lia|].
  cbn [skipn]. rewrite IH by (simpl in H; lia).
  destruct l as [|y l]; [simpl in H; lia | reflexivity].
Qed.

Lemma abbreviate_names_tail (names : list string) :
  skipn (List.length names - (1 + num_suffixes names)) (abbreviate_names names)
  = skipn (List.length names - (1 + num_suffixes names)) names.
Proof.
  rewrite abbreviate_names_map. cbv zeta.
  set (m := List.length names - (1 + num_suffixes names)).
  rewrite skipn_app, abbreviated_from_length, length_firstn.
  replace (Nat.min m (List.length names)) with m by (unfold m; lia).
  rewrite Nat.sub_diag. cbn [skipn].
  rewrite skipn_all2; [reflexivity|].
  rewrite abbreviated_from_length, length_firstn. lia.
Qed.

Lemma abbreviation_shape (name a : string) :
  abbreviation name = Some a ->
  exists c0, first_char name = Some c0
             /\ (a = String c0 "."
                 \/ exists c1, a = String c0 (".-" ++ String c1 ".")).
Proof.
  unfold abbreviation.
  destruct (_ || _)%bool; [|discriminate].
  destruct (first_char name) as [c0|]; [|discriminate].
  destruct (_ && _)%bool.
  - destruct (String.get _ name) as [c1|]; [|discriminate].
    intros E. injection E as <-. exists c0. split; [reflexivity|]. right.
    exists c1. reflexivity.
  - intros E. injection E as <-. exists c0. auto.
Qed.

Lemma abbreviated_dashed (j : nat) (c0 c1 : ascii) :
  c0 <> "-"%char ->
  abbreviated j (String c0 (".-" ++ String c1 "."))
  = String c0 (".-" ++ String c1 ".").
Proof.
  intros N. apply Ascii.eqb_neq in N.
  assert (D : char_in "-" (String c0 (".-" ++ String c1 ".")) = true).
  { cbn [append char_in]. rewrite Ascii.eqb_refl. cbn.
    now rewrite !orb_true_r. }
  unfold abbreviated.
  rewrite (dash_not_in_list _ prefixes D eq_refl).
  rewrite (dash_not_in_list _ prepositions D eq_refl).
  rewrite !andb_false_r.
  unfold abbreviation, first_char. cbn [append String.length String.get find].
  rewrite N. cbn. reflexivity.
Qed.

End Surname.

(** X13: the abbreviation loop keeps the number of words and leaves the
    last word and the suffixes in front of which it stands as they are; in
    particular the surname is never abbreviated. *)
Theorem abbreviation_keeps_surname (names : list string) :
  List.length (abbreviate_names names) = List.length names
  /\ skipn (List.length names - (1 + num_suffixes names)) (abbreviate_names names)
     = skipn (List.length names - (1 + num_suffixes names)) names
  /\ last (abbreviate_names names) "" = last names "".
Proof.
  split; [apply abbreviate_names_length|].
  split; [apply abbreviate_names_tail|].
  destruct names as [|x l] eqn:E; [reflexivity|]. rewrite <- E.
  set (m := List.length names - (1 + num_suffixes names)).
  assert (Hm : (m < List.length names)%nat) by (unfold m; subst names; simpl; lia).
  rewrite <- (last_skipn m (abbreviate_names names))
    by (now rewrite abbreviate_names_length).
  rewrite <- (last_skipn m names) by exact Hm.
  unfold m. now rewrite abbreviate_names_tail.
Qed.

(** X14: abbreviating an abbreviated word again changes nothing, provided
    the word does not begin with a dash. *)
Theorem abbreviated_twice (j : nat) (name : string) :
  first_char name <> Some "-"%char ->
  abbreviated j (abbreviated j name) = abbreviated j name.
Proof.
  intros N.
  destruct ((j =? 0)%nat && in_list name prefixes) eqn:C1.
  { assert (H : abbreviated j name = name)
      by (unfold abbreviated; now rewrite C1).
    now rewrite !H. }
  destruct ((0 <? j)%nat && in_list name prepositions) eqn:C2.
  { assert (H : abbreviated j name = name)
      by (unfold abbreviated; now rewrite C1, C2).
    now rewrite !H. }
  destruct (abbreviation name) as [a|] eqn:A.
  - assert (H : abbreviated j name = a)
      by (unfold abbreviated; now rewrite C1, C2, A).
    rewrite H.
    destruct (abbreviation_shape name a A) as (c0 & F & [->|(c1 & ->)]).
    + apply abbreviated_dotted.
    + apply abbreviated_dashed. intros ->. now apply N.
  - assert (H : abbreviated j name = name)
      by (unfold abbreviated; now rewrite C1, C2, A).
    now rewrite !H.
Qed.

Lemma abbreviated_twice_witness :
  abbreviated 0 (abbreviated 0 "Jean-Paul") = abbreviated 0 "Jean-Paul".
Proof. apply abbreviated_twice. discriminate. Defined.

(** A word that begins with a dash is abbreviated differently each time. *)
Example abbreviated_twice_leading_dash :
  abbreviated 0 "-Xy" = "-.-X." /\ abbreviated 0 "-.-X." = "-.-..".
Proof. split; reflexivity. Qed.

(** ** The context object *)

Section ContextObject.

Lemma split_length_pos (sep : ascii) (s : string) :
  (1 <= List.length (split sep s))%nat.
Proof.
  pose proof (split_not_nil sep s). destruct (split sep s); [contradiction|].
  simpl. lia.
Qed.

Lemma split_length_sep (sep : ascii) (s : string) :
  char_in sep s = true -> (2 <= List.length (split sep s))%nat.
Proof.
  induction s as [|c s IH]; [discriminate|].
  cbn [char_in split]. rewrite (Ascii.eqb_sym c sep).
  destruct (Ascii.eqb sep c).
  - intros _. cbn [List.length]. pose proof (split_length_pos sep s). lia.
  - cbn [orb]. intros H. specialize (IH H).
    destruct (split sep s) as [|w ws]; [simpl in IH; lia | exact IH].
Qed.

Variable urlquote_plus : string -> string.

Lemma filter_map_all (p : string -> bool) (f : string -> string) (l : list string) :
  (forall a, p (f a) = true) -> filter p (map f l) = map f l.
Proof.
  intros H. induction l as [|a l IH]; [reflexivity|].
  cbn [map filter]. now rewrite H, IH.
Qed.

Lemma filter_map_none (p : string -> bool) (f : string -> string) (l : list string) :
  (forall a, p (f a) = false) -> filter p (map f l) = [].
Proof.
  intros H. induction l as [|a l IH]; [reflexivity|].
  cbn [map filter]. now rewrite H, IH.
Qed.

Lemma filter_if_none (p : string -> bool) (b : bool) (x : string) :
  p x = false -> filter p (if b then [x] else []) = [].
Proof. intros H. destruct b; [cbn; now rewrite H | reflexivity]. Qed.

End ContextObject.

(** X15: the label that [z3988] takes from the site domain is the label
    before the last one whenever the domain has a dot, whichever of the two
    branches picks it, and the empty text for a domain without a dot. *)
Theorem rfr_id_is_second_last_label (domain : string) :
  (char_in "." domain = false -> rfr_id domain = "")
  /\ (char_in "." domain = true ->
      (2 <= List.length (split "." domain))%nat
      /\ rfr_id domain
         = nth (List.length (split "." domain) - 2) (split "." domain) "").
Proof.
  unfold rfr_id. cbv zeta. split.
  - intros H. now rewrite (split_one "." domain H).
  - intros H. pose proof (split_length_sep "." domain H) as L.
    split; [exact L|].
    destruct (Nat.ltb_spec 2 (List.length (split "." domain))); [reflexivity|].
    destruct (Nat.ltb_spec 1 (List.length (split "." domain))); [|lia].
    replace (List.length (split "." domain) - 2) with 0 by lia. reflexivity.
Qed.

Lemma rfr_id_is_second_last_label_witness :
  rfr_id "localhost" = ""
  /\ (2 <= List.length (split "." "www.example.org"))%nat
  /\ rfr_id "www.example.org"
     = nth (List.length (split "." "www.example.org") - 2)
           (split "." "www.example.org") "".
Proof.
  split.
  - apply (rfr_id_is_second_last_label "localhost"). reflexivity.
  - apply (rfr_id_is_second_last_label "www.example.org"). reflexivity.
Defined.

(** X16: the context object has one [rft.au] entry for each entry of the
    authors list, in the order of the list, and exactly one [rft.date]
    entry, whatever the other columns hold. *)
Theorem z3988_author_and_date_entries
  (urlquote_plus : string -> string) (domain : string)
  (self : Publication) (d : Details) :
  filter (prefix "rft.au=") (z3988_items urlquote_plus domain self d)
  = map (fun author => "rft.au=" ++ urlquote_plus author) (authors_list self)
  /\ exists date,
       filter (prefix "rft.date=") (z3988_items urlquote_plus domain self d)
       = [date]
       /\ (date = "rft.date=" ++ format_int (year self)
           \/ date = "rft.date=" ++ format_int (year self) ++ "-"
                     ++ format_int (month self) ++ "-1").
Proof.
  unfold z3988_items. cbv zeta. split.
  - rewrite !filter_app.
    rewrite (filter_map_all (prefix "rft.au=")
               (fun author => "rft.au=" ++ urlquote_plus author))
      by (intros a; apply prefix_append).
    destruct (nonempty (book_title d) && negb (nonempty (journal d)));
      rewrite ?filter_app, !filter_if_none by reflexivity;
      destruct (nonzero (month self)); cbn; now rewrite ?app_nil_r.
  - rewrite !filter_app.
    rewrite (filter_map_none (prefix "rft.date=")
               (fun author => "rft.au=" ++ urlquote_plus author))
      by (intros a; reflexivity).
    destruct (nonzero (month self)).
    + exists ("rft.date=" ++ format_int (year self) ++ "-"
              ++ format_int (month self) ++ "-1").
      split; [|right; reflexivity].
      destruct (nonempty (book_title d) && negb (nonempty (journal d)));
        rewrite ?filter_app, !filter_if_none by reflexivity;
        cbn; rewrite prefix_nil_l; reflexivity.
    + exists ("rft.date=" ++ format_int (year self)).
      split; [|left; reflexivity].
      destruct (nonempty (book_title d) && negb (nonempty (journal d)));
        rewrite ?filter_app, !filter_if_none by reflexivity;
        cbn; rewrite prefix_nil_l; reflexivity.
Qed.

(** ** Separators never enter a name *)

Section NameCharacters.

Variable c : ascii.
Hypothesis not_dot : Ascii.eqb c "." = false.
Hypothesis not_dash : Ascii.eqb c "-" = false.
Hypothesis not_blank : Ascii.eqb c " " = false.

Lemma abbreviation_chars (name a : string) :
  abbreviation name = Some a -> char_in c name = false -> char_in c a = false.
Proof.
  unfold abbreviation, first_char.
  destruct (_ || _)%bool; [|discriminate].
  destruct (String.get 0 name) as [c0|] eqn:G0; [|discriminate].
  assert (H0 : char_in c name = false -> Ascii.eqb c c0 = false).
  { intros H. destruct (Ascii.eqb_spec c c0) as [<-|]; [|reflexivity].
    apply get_char_in in G0. congruence. }
  destruct (_ && _)%bool.
  - destruct (String.get (Z.to_nat _) name) as [c1|] eqn:G1; [|discriminate].
    intros E H. injection E as <-.
    assert (H1 : Ascii.eqb c c1 = false).
    { destruct (Ascii.eqb_spec c c1) as [<-|]; [|reflexivity].
      apply get_char_in in G1. congruence. }
    cbn [append char_in]. now rewrite (H0 H), H1, not_dot, not_dash.
  - intros E H. injection E as <-. cbn [char_in]. now rewrite (H0 H), not_dot.
Qed.

Lemma abbreviated_chars (j : nat) (name : string) :
  char_in c name = false -> char_in c (abbreviated j name) = false.
Proof.
  intros H. unfold abbreviated.
  destruct (_ && _)%bool; [exact H|].
  destruct (_ && _)%bool; [exact H|].
  destruct (abbreviation name) as [a|] eqn:A; [|exact H].
  exact (abbreviation_chars name a A H).
Qed.

Lemma abbreviated_from_chars (j : nat) (l : list string) :
  Forall (fun t => char_in c t = false) l ->
  Forall (fun t => char_in c t = false) (abbreviated_from j l).
Proof.
  intros F; revert j; induction F as [|x l Hx _ IH]; intros j; cbn.
  - constructor.
  - constructor; [now apply abbreviated_chars | apply IH].
Qed.

Lemma Forall_skipn {A : Type} (P : A -> Prop) (n : nat) (l : list A) :
  Forall P l -> Forall P (skipn n l).
Proof.
  intros H; revert n; induction H as [|x l Hx Hl IH]; intros [|n]; cbn; auto.
Qed.

Lemma Forall_removelast {A : Type} (P : A -> Prop) (l : list A) :
  Forall P l -> Forall P (removelast l).
Proof.
  induction 1 as [|x l Hx Hl IH]; [constructor|].
  cbn [removelast]. destruct l; [constructor | now constructor].
Qed.

Lemma Forall_last {A : Type} (P : A -> Prop) (l : list A) (d : A) :
  P d -> Forall P l -> P (last l d).
Proof.
  intros Hd. induction 1 as [|x l Hx Hl IH]; [exact Hd|].
  cbn [last]. destruct l; [exact Hx | exact IH].
Qed.

Lemma abbreviate_names_chars (names : list string) :
  Forall (fun t => char_in c t = false) names ->
  Forall (fun t => char_in c t = false) (abbreviate_names names).
Proof.
  intros F. rewrite abbreviate_names_map. cbv zeta.
  apply Forall_app. split.
  - apply abbreviated_from_chars, Forall_firstn, F.
  - apply Forall_skipn, F.
Qed.

Lemma dotted_chars (w : string) :
  char_in c w = false -> Forall (fun t => char_in c t = false) (dotted w).
Proof.
  unfold dotted. induction w as [|x w IH]; [constructor|].
  cbn [char_in list_ascii_of_string map]. intros H.
  apply orb_false_elim in H. destruct H as [H1 H2].
  constructor; [|exact (IH H2)].
  cbn [char_in]. now rewrite H1, not_dot.
Qed.

Lemma initials_chars (names : list string) :
  Forall (fun t => char_in c t = false) names ->
  Forall (fun t => char_in c t = false) (initials names).
Proof.
  intros F. unfold initials. destruct (has_initials names); [|exact F].
  apply Forall_app. split.
  - apply (dotted_chars (last names "")).
    exact (Forall_last (fun t => char_in c t = false) names "" eq_refl F).
  - now apply Forall_removelast.
Qed.

Lemma display_name_chars (t : string) :
  char_in c t = false -> char_in c (display_name t) = false.
Proof.
  intros H. unfold display_name.
  destruct (String.eqb t ""); [exact H|].
  destruct (author_names t) as [|n ns] eqn:E; [exact H|]. rewrite <- E.
  apply char_in_join; [cbn [char_in]; now rewrite not_blank|].
  unfold author_names. apply abbreviate_names_chars, initials_chars.
  apply Forall_forall. intros w Hw.
  destruct (char_in c w) eqn:Cw; [|reflexivity].
  apply (proj2 (split_pieces _ _ _ Hw)) in Cw. congruence.
Qed.

End NameCharacters.

(** X17: for authors that are not wrapped in braces, no entry of the
    authors list holds a comma or a semicolon: the processing of a name
    brings in no separator. *)
Theorem authors_list_has_no_separator (pk y m : option Z) (kw raw : string) :
  wrapped raw = false ->
  Forall (fun author => char_in "," author = false /\ char_in ";" author = false)
         (authors_list (init pk y m kw raw)).
Proof.
  intros W. destruct (init_plain pk y m kw raw W) as (-> & _).
  apply Forall_forall. intros a H. apply in_map_iff in H.
  destruct H as (t & <- & Ht).
  destruct (tokens_shape raw t Ht) as (H1 & H2 & _). split.
  - exact (display_name_chars "," eq_refl eq_refl eq_refl t H1).
  - exact (display_name_chars ";" eq_refl eq_refl eq_refl t H2).
Qed.

Lemma authors_list_has_no_separator_witness :
  Forall (fun author => char_in "," author = false /\ char_in ";" author = false)
         (authors_list (normalize "Jean-Paul Sartre; Gauss CF, Ann Lee")).
Proof. apply authors_list_has_no_separator. reflexivity. Defined.

(** X18: [first_author] never fails on a record built by [__init__]; for
    authors that are not wrapped it is the entry of the first token. *)
Theorem first_author_of_constructed_record (pk y m : option Z) (kw raw : string) :
  (exists a, first_author (init pk y m kw raw) = Ok a)
  /\ (wrapped raw = false ->
      first_author (init pk y m kw raw)
      = Ok (display_name (hd "" (tokens raw)))).
Proof.
  unfold first_author. split.
  - destruct (authors_list (init pk y m kw raw)) as [|a l] eqn:E.
    + exfalso. exact (init_authors_list_not_nil pk y m kw raw E).
    + exists a. reflexivity.
  - intros W. destruct (init_plain pk y m kw raw W) as (-> & _).
    pose proof (tokens_not_nil raw) as N.
    destruct (tokens raw); [contradiction | reflexivity].
Qed.

Lemma first_author_of_constructed_record_witness :
  first_author (normalize "Gauss CF and Ann Lee")
  = Ok (display_name (hd "" (tokens "Gauss CF and Ann Lee"))).
Proof. apply first_author_of_constructed_record. reflexivity. Defined.

(** ** Two records, two keys *)

Section DistinctKeys.

Lemma append_cancel_l (a x y : string) : a ++ x = a ++ y -> x = y.
Proof.
  induction a as [|c a IH]; [auto|].
  cbn [append]. intros E. injection E as E. exact (IH E).
Qed.

Lemma filter_length_app {A : Type} (p : A -> bool) (l1 l2 : list A) :
  List.length (filter p (l1 ++ l2))
  = List.length (filter p l1) + List.length (filter p l2).
Proof. now rewrite filter_app, length_app. Qed.

End DistinctKeys.

(** The query looks for the surname in the stored authors text, where the
    initials are still written after the surname: neither record below is
    among its own siblings, and both get the same key. *)
Example records_outside_the_query_share_a_key :
  siblings [smith 1 1 "CF"; smith 2 2 "DF"] (Some 2020%Z) "F." = []
  /\ authors_list (load (smith 1 1 "CF")) = ["C. F."]
  /\ authors_list (load (smith 2 2 "DF")) = ["D. F."]
  /\ key [smith 1 1 "CF"; smith 2 2 "DF"] (load (smith 1 1 "CF"))
     = Ok "F.2020a"
  /\ key [smith 1 1 "CF"; smith 2 2 "DF"] (load (smith 2 2 "DF"))
     = Ok "F.2020a".
Proof. repeat split. Qed.

(** X19: two stored records of one year that the query for their common
    first-author surname both returns (the stored authors text of each
    contains the surname, whatever the case of its letters) get different
    keys.  The query result is [pre ++ s1 :: mid ++ s2 :: post], where [s1]
    is the first record in it that equals the one record, [s2] the first
    that equals the other, and the first author of [s1] has the surname:
    the later record counts the earlier one, so the last character of its
    key lies further from 'a'.  Stated for at most 30 records of that
    surname in front of the later one, where both keys are returned.
    Records that the query does not return are not covered (see the example
    above). *)
Theorem keys_of_two_siblings_differ
  (objects : list Row) (self1 self2 : Publication)
  (first1 first2 : string) (rest1 rest2 : list string)
  (pre mid post : list Publication) (s1 s2 : Publication) :
  authors_list self1 = first1 :: rest1 ->
  authors_list self2 = first2 :: rest2 ->
  last (split " " first2) "" = last (split " " first1) "" ->
  year self2 = year self1 ->
  siblings objects (year self1) (last (split " " first1) "")
  = (pre ++ s1 :: mid ++ s2 :: post)%list ->
  pub_eqb s1 self1 = true ->
  pub_eqb s2 self2 = true ->
  all_before self1 pre = true ->
  all_before self2 (pre ++ s1 :: mid) = true ->
  same_surname (last (split " " first1) "") s1 = true ->
  (List.length (filter (same_surname (last (split " " first1) ""))
                  (pre ++ s1 :: mid)) <= 30)%nat ->
  exists k1 k2,
    key objects self1 = Ok k1 /\ key objects self2 = Ok k2 /\ k1 <> k2.
Proof.
  intros Ea1 Ea2 Es Ey Sib Q1 Q2 B1 B2 S1 Bound.
  set (sn := last (split " " first1) "") in *.
  pose proof (key_scan objects self1 first1 rest1 pre s1 (mid ++ s2 :: post)
                Ea1 Sib Q1 B1) as K1.
  assert (Sib2 : siblings objects (year self2) (last (split " " first2) "")
                 = ((pre ++ s1 :: mid) ++ s2 :: post)%list).
  { rewrite Es, Ey. fold sn. rewrite Sib, <- app_assoc. reflexivity. }
  pose proof (key_scan objects self2 first2 rest2 (pre ++ s1 :: mid) s2 post
                Ea2 Sib2 Q2 B2) as K2.
  rewrite Es, Ey in K2. fold sn in K1, K2.
  rewrite filter_length_app in K2, Bound.
  cbn [filter] in K2, Bound. rewrite S1 in K2, Bound.
  cbn [List.length] in K2, Bound.
  set (n := List.length (filter (same_surname sn) pre)) in *.
  set (k := List.length (filter (same_surname sn) mid)) in *.
  destruct (key_string_ascii sn (year self1) (ord "a" + Z.of_nat n)) as [E1 O1].
  { change (ord "a") with 97%Z. lia. }
  destruct (key_string_ascii sn (year self1) (ord "a" + Z.of_nat (n + S k)))
    as [E2 O2].
  { change (ord "a") with 97%Z. lia. }
  rewrite E1 in K1. rewrite E2 in K2.
  remember (ascii_of_N (Z.to_N (ord "a" + Z.of_nat n))) as c1 eqn:C1.
  remember (ascii_of_N (Z.to_N (ord "a" + Z.of_nat (n + S k)))) as c2 eqn:C2.
  clear C1 C2 E1 E2.
  eexists. eexists. split; [exact K1|]. split; [exact K2|].
  intros E. apply append_cancel_l, append_cancel_l in E.
  unfold one in E. injection E as E. subst c2. lia.
Qed.

Lemma keys_of_two_siblings_differ_witness :
  exists k1 k2,
    key smiths (load (smith 1 1 "John Smith")) = Ok k1
    /\ key smiths (load (smith 3 3 "Adam Smith")) = Ok k2
    /\ k1 <> k2.
Proof.
  apply (keys_of_two_siblings_differ smiths
           (load (smith 1 1 "John Smith")) (load (smith 3 3 "Adam Smith"))
           "J. Smith" "A. Smith" [] []
           [] [load (smith 2 3 "Jane Smith")] []
           (load (smith 1 1 "John Smith")) (load (smith 3 3 "Adam Smith")));
    try reflexivity.
  vm_compute. lia.
Defined.


(** ** Normalising the rewritten string *)

Section AbbreviatedNames.

Lemma is_initial_shape (w : string) :
  is_initial w = true -> exists c, w = String c ".".
Proof.
  destruct w as [|c r]; [discriminate|]. cbn [is_initial].
  intros E. apply String.eqb_eq in E. subst r. eauto.
Qed.

Lemma is_initial_fixed (w : string) :
  is_initial w = true -> forall j, abbreviated j w = w.
Proof.
  intros H j. destruct (is_initial_shape w H) as (c & ->).
  apply abbreviated_dotted.
Qed.

Lemma forallb_fixed (l : list string) :
  forallb is_initial l = true ->
  Forall (fun x => forall i, abbreviated i x = x) l.
Proof.
  intros H. apply Forall_forall. intros x Hx.
  rewrite forallb_forall in H. exact (is_initial_fixed x (H x Hx)).
Qed.

(** A word list whose abbreviation range holds initials only is left as it
    is by the loop. *)
Lemma abbreviate_names_of_initials (names : list string) :
  forallb is_initial
    (firstn (List.length names - (1 + num_suffixes names)) names) = true ->
  abbreviate_names names = names.
Proof.
  intros H. rewrite abbreviate_names_map. cbv zeta.
  rewrite (abbreviated_from_fixed 0 _ (forallb_fixed _ H)).
  apply firstn_skipn.
Qed.

Lemma suffix_run_app_le (a b : list string) :
  (suffix_run a <= suffix_run (a ++ b))%nat.
Proof.
  induction a as [|x a IH]; cbn [suffix_run app]; [lia|].
  destruct (in_list x suffixes); lia.
Qed.

Lemma suffix_run_all (a b : list string) :
  forallb (fun s => in_list s suffixes) a = true ->
  (List.length a <= suffix_run (a ++ b))%nat.
Proof.
  induction a as [|x a IH]; cbn [forallb suffix_run app List.length]; [lia|].
  intros H. apply andb_prop in H. destruct H as [-> H]. specialize (IH H). lia.
Qed.

Lemma forallb_rev {A : Type} (p : A -> bool) (l : list A) :
  forallb p l = true -> forallb p (rev l) = true.
Proof.
  rewrite !forallb_forall. intros H x Hx. apply H. now apply in_rev.
Qed.

Lemma forallb_firstn_le {A : Type} (p : A -> bool) (k m : nat) (l : list A) :
  (k <= m)%nat ->
  forallb p (firstn m l) = true -> forallb p (firstn k l) = true.
Proof.
  revert k m; induction l as [|a l IH]; intros k m L.
  - now rewrite !firstn_nil.
  - destruct k as [|k]; [reflexivity|]. destruct m as [|m]; [lia|].
    cbn [firstn forallb]. intros H. apply andb_prop in H. destruct H as [-> H].
    apply (IH k m); [lia | exact H].
Qed.

(** In a name of the abbreviated form the loop meets initials only. *)
Lemma abbreviated_form_range (names : list string) :
  initials_then_surname names = true ->
  forallb is_initial
    (firstn (List.length names - (1 + num_suffixes names)) names) = true.
Proof.
  induction names as [|w rest IH]; [discriminate|].
  cbn [initials_then_surname]. intros H. apply orb_prop in H.
  unfold num_suffixes in *. cbn [rev List.length].
  destruct H as [H|H].
  - pose proof (suffix_run_all (rev rest) [w] (forallb_rev _ _ H)) as L.
    rewrite length_rev in L.
    replace (S (List.length rest) - (1 + suffix_run (rev rest ++ [w]))) with 0
      by lia.
    reflexivity.
  - apply andb_prop in H. destruct H as [Hw H]. specialize (IH H).
    pose proof (suffix_run_app_le (rev rest) [w]) as L.
    destruct (S (List.length rest) - (1 + suffix_run (rev rest ++ [w])))
      as [|k] eqn:E; [reflexivity|].
    cbn [firstn forallb]. rewrite Hw. cbn [andb].
    apply (forallb_firstn_le _ k _ rest) in IH; [exact IH | lia].
Qed.

Lemma join_split (sep : ascii) (s : string) :
  join (one sep) (split sep s) = s.
Proof.
  induction s as [|c s IH]; [reflexivity|].
  cbn [split]. destruct (Ascii.eqb_spec c sep) as [->|N].
  - rewrite join_cons by apply split_not_nil. now rewrite IH.
  - destruct (split sep s) as [|w ws] eqn:E.
    + exfalso. exact (split_not_nil _ _ E).
    + destruct ws as [|w' ws'].
      * cbn in *. now rewrite IH.
      * rewrite join_cons by discriminate. rewrite join_cons in IH by discriminate.
        cbn [append]. now rewrite IH.
Qed.

Lemma split_join_words (l : list string) :
  l <> [] ->
  Forall (fun w => char_in " " w = false) l ->
  split " " (join " " l) = l.
Proof.
  induction l as [|a l IH]; intros N F; [contradiction|].
  inversion F as [|? ? Ha F']; subst.
  destruct l as [|b l'].
  - exact (split_one " " a Ha).
  - rewrite (join_cons " " a (b :: l')) by discriminate.
    change (a ++ " " ++ join " " (b :: l'))
      with (a ++ String " " (join " " (b :: l'))).
    rewrite (split_sep " " a _ Ha). f_equal. apply IH; [discriminate | exact F'].
Qed.

Lemma has_initials_parts (names : list string) :
  has_initials names = true ->
  in_list (last names "") suffixes = false
  /\ all_chars is_upper (last names "") = true.
Proof.
  unfold has_initials. cbv zeta. intros H.
  apply andb_prop in H. destruct H as [H H3].
  apply andb_prop in H. destruct H as [_ H2].
  apply negb_true_iff in H2. split; [exact H2|].
  now rewrite <- (all_chars_ext _ is_upper _ char_in_ascii_uppercase).
Qed.

Lemma has_initials_no_suffix (names : list string) :
  has_initials names = true -> num_suffixes names = 0.
Proof.
  intros H. destruct (has_initials_parts names H) as [H2 _].
  unfold num_suffixes. destruct names as [|x l]; [reflexivity|].
  rewrite (app_removelast_last "" (l := x :: l)) by discriminate.
  rewrite rev_app_distr. cbn [rev app suffix_run]. now rewrite H2.
Qed.

Lemma is_upper_not_space (c : ascii) :
  is_upper c = true -> is_space c = false /\ Ascii.eqb " " c = false.
Proof. destruct c as [[] [] [] [] [] [] [] []]; cbn; intros H; try discriminate; auto. Qed.

Lemma dotted_initials (w : string) : forallb is_initial (dotted w) = true.
Proof.
  unfold dotted. induction (list_ascii_of_string w) as [|c l IH]; [reflexivity|].
  cbn [map forallb is_initial]. now rewrite IH.
Qed.

Lemma initials_of_words (l : list string) :
  forallb is_initial l = true ->
  Forall (fun w => char_in " " w = false) l ->
  exists cs, l = map (fun c => String c ".") cs
             /\ Forall (fun c => Ascii.eqb " " c = false) cs.
Proof.
  induction l as [|w l IH]; intros H F; [exists []; split; [reflexivity | constructor]|].
  cbn [forallb] in H. apply andb_prop in H. destruct H as [Hw H].
  inversion F as [|? ? Fw F']; subst.
  destruct (IH H F') as (cs & -> & Fc).
  destruct (is_initial_shape w Hw) as (c & ->).
  exists (c :: cs). split; [reflexivity|]. constructor; [|exact Fc].
  cbn [char_in] in Fw. apply orb_false_elim in Fw. now destruct Fw.
Qed.

Lemma dotted_chars_upper (w : string) :
  all_chars is_upper w = true ->
  Forall (fun c => is_upper c = true) (list_ascii_of_string w).
Proof.
  induction w as [|c w IH]; [constructor|].
  cbn [all_chars list_ascii_of_string]. intros H.
  apply andb_prop in H. destruct H as [H1 H2]. constructor; auto.
Qed.

Lemma forallb_firstn {A : Type} (p : A -> bool) (k : nat) (l : list A) :
  forallb p l = true -> forallb p (firstn k l) = true.
Proof.
  revert k; induction l as [|a l IH]; intros k H; [now rewrite firstn_nil|].
  destruct k as [|k]; [reflexivity|].
  cbn [firstn forallb] in *. apply andb_prop in H. destruct H as [-> H].
  now apply IH.
Qed.

Lemma initials_text_head (c : ascii) (cs : list ascii) :
  exists r, initials_text (c :: cs) = String c (String "." r).
Proof.
  unfold initials_text. destruct cs as [|c' cs].
  - exists "". reflexivity.
  - exists (" " ++ join " " (map (fun x => String x ".") (c' :: cs))).
    reflexivity.
Qed.

Lemma initials_text_cons (c c' : ascii) (cs : list ascii) :
  initials_text (c :: c' :: cs)
  = String c (String "." (String " " (initials_text (c' :: cs)))).
Proof. reflexivity. Qed.

Lemma initials_last_word (c : ascii) (cs : list ascii) :
  exists y, last (map (fun x => String x ".") (c :: cs)) "" = String y ".".
Proof.
  revert c; induction cs as [|c' cs IH]; intros c; [now exists c|].
  destruct (IH c') as (y & E). exists y.
  cbn [map] in *. now rewrite last_cons_cons.
Qed.

Lemma initials_last_char (c : ascii) (cs : list ascii) :
  last_char (initials_text (c :: cs)) = Some "."%char.
Proof.
  revert c; induction cs as [|c' cs IH]; intros c; [reflexivity|].
  rewrite initials_text_cons.
  destruct (initials_text_head c' cs) as (r & E).
  specialize (IH c'). rewrite E in *. exact IH.
Qed.

Lemma rstrip_fixed (s : string) (x : ascii) :
  last_char s = Some x -> is_space x = false -> rstrip s = s.
Proof.
  induction s as [|a s IH]; [discriminate|].
  destruct s as [|b s'].
  - cbn. intros E Sp. injection E as ->. now rewrite Sp.
  - intros E Sp.
    change (last_char (String a (String b s'))) with (last_char (String b s')) in E.
    specialize (IH E Sp). cbn [rstrip] in *. now rewrite IH.
Qed.

Lemma and_after_initial (c : ascii) (r : string) :
  contains " and " r = false ->
  contains " and " (String " " (String c (String "." r))) = false.
Proof.
  intros H. cbn [contains]. rewrite !prefix_cons, H.
  destruct (Ascii.eqb "a" c), (Ascii.eqb " " c); reflexivity.
Qed.

Section Initials_text.

Variables (c : ascii) (cs : list ascii).
Hypothesis upper : is_upper c = true.
Hypothesis no_blank : Forall (fun x => Ascii.eqb " " x = false) cs.

Lemma initials_words_no_blank :
  Forall (fun w => char_in " " w = false)
         (map (fun x => String x ".") (c :: cs)).
Proof.
  apply Forall_forall. intros w H. apply in_map_iff in H.
  destruct H as (x & <- & Hx). cbn [char_in].
  destruct Hx as [<-|Hx].
  - now rewrite (proj2 (is_upper_not_space c upper)).
  - rewrite Forall_forall in no_blank. now rewrite (no_blank x Hx).
Qed.

Lemma initials_words_initial :
  forallb is_initial (map (fun x => String x ".") (c :: cs)) = true.
Proof.
  induction (c :: cs) as [|x l IH]; [reflexivity|].
  cbn [map forallb is_initial]. now rewrite IH.
Qed.

Lemma initials_text_display :
  display_name (initials_text (c :: cs)) = initials_text (c :: cs).
Proof.
  unfold display_name.
  destruct (initials_text_head c cs) as (r & E).
  destruct (String.eqb_spec (initials_text (c :: cs)) "") as [Z|_];
    [rewrite E in Z; discriminate|].
  unfold author_names, initials_text at 1 2.
  assert (Nn : map (fun x => String x ".") (c :: cs) <> []) by discriminate.
  rewrite (split_join_words _ Nn initials_words_no_blank).
  assert (HI : has_initials (map (fun x => String x ".") (c :: cs)) = false).
  { unfold has_initials. cbv zeta.
    destruct (initials_last_word c cs) as (y & ->).
    cbn [all_chars]. rewrite (char_in_ascii_uppercase ".").
    change (is_upper ".") with false. cbn [andb]. now rewrite !andb_false_r. }
  unfold initials. rewrite HI.
  rewrite abbreviate_names_of_initials
    by (apply forallb_firstn, initials_words_initial).
  reflexivity.
Qed.

Lemma initials_text_strip :
  strip (initials_text (c :: cs)) = initials_text (c :: cs).
Proof.
  unfold strip. destruct (initials_text_head c cs) as (r & E).
  assert (L : lstrip (initials_text (c :: cs)) = initials_text (c :: cs)).
  { rewrite E. cbn [lstrip]. now rewrite (proj1 (is_upper_not_space c upper)). }
  rewrite L. exact (rstrip_fixed _ "." (initials_last_char c cs) eq_refl).
Qed.

End Initials_text.

Lemma initials_text_and_free (c : ascii) (cs : list ascii) :
  and_free (initials_text (c :: cs)) = true.
Proof.
  unfold and_free. apply negb_true_iff.
  revert c; induction cs as [|c' cs IH]; intros c.
  - exact (and_after_initial c " " eq_refl).
  - rewrite initials_text_cons.
    exact (and_after_initial c _ (IH c')).
Qed.

(** What the processing makes of a token of the abbreviated form: the token
    itself, or, when its last word is taken for initials, a text of
    initials only. *)
Lemma display_name_form (x : string) :
  abbreviated_name (strip x) = true ->
  display_name (strip x) = strip x
  \/ exists c cs,
       display_name (strip x) = initials_text (c :: cs)
       /\ is_upper c = true
       /\ Forall (fun y => Ascii.eqb " " y = false) cs.
Proof.
  intros H. unfold abbreviated_name in H.
  pose proof (abbreviated_form_range _ H) as R.
  unfold display_name.
  destruct (String.eqb_spec (strip x) "") as [Z|N]; [now left|].
  unfold author_names, initials.
  set (names := split " " (strip x)) in *.
  destruct (has_initials names) eqn:HI.
  - right.
    rewrite (has_initials_no_suffix names HI) in R.
    replace (List.length names - (1 + 0)) with (pred (List.length names)) in R
      by lia.
    rewrite <- removelast_firstn_len in R.
    destruct (has_initials_parts names HI) as [_ U].
    destruct (rstrip_last (lstrip x) N) as (e & L & Sp).
    fold (strip x) in L.
    assert (Ne : e <> " "%char) by (intros ->; discriminate).
    pose proof (split_last_word (strip x) e L Ne) as W. fold names in W.
    destruct (last names "") as [|c w] eqn:Ew; [contradiction|].
    cbn [all_chars] in U. apply andb_prop in U. destruct U as [Uc Uw].
    assert (Fw : Forall (fun w => char_in " " w = false) (removelast names)).
    { apply Forall_removelast, Forall_forall. intros v Hv.
      exact (proj1 (split_pieces _ _ _ Hv)). }
    destruct (initials_of_words _ R Fw) as (cs2 & Er & F2).
    exists c, (list_ascii_of_string w ++ cs2)%list.
    assert (En : (dotted (String c w) ++ removelast names)%list
                 = map (fun y => String y ".")
                       (c :: list_ascii_of_string w ++ cs2)).
    { rewrite Er. unfold dotted. cbn [list_ascii_of_string map app].
      now rewrite map_app. }
    fold (dotted (String c w)). rewrite En.
    assert (Fb : Forall (fun y => Ascii.eqb " " y = false)
                   (list_ascii_of_string w ++ cs2)).
    { apply Forall_app. split; [|exact F2].
      eapply Forall_impl; [|exact (dotted_chars_upper w Uw)].
      intros y Hy. exact (proj2 (is_upper_not_space y Hy)). }
    rewrite abbreviate_names_of_initials
      by (apply forallb_firstn, initials_words_initial).
    repeat split; assumption.
  - left. rewrite (abbreviate_names_of_initials names R).
    destruct names as [|n0 ns] eqn:En; [exfalso; exact (split_not_nil _ _ En)|].
    rewrite <- En. exact (join_split " " (strip x)).
Qed.

(** The entry of a token of the abbreviated form, free of dashes, braces
    and the word "and": it can be told apart in the rewritten string, and
    the processing leaves it as it is. *)
Lemma abbreviated_token_entry (raw t : string) :
  In t (tokens raw) ->
  abbreviated_name t = true -> plain t = true -> and_free t = true ->
  clean (display_name t)
  /\ display_name (display_name t) = display_name t
  /\ first_char (display_name t) <> Some "{"%char.
Proof.
  intros Ht Ha Hp Hf.
  destruct (tokens_shape raw t Ht) as (H1 & H2 & H3).
  destruct (tokens_stripped raw t Ht) as (x & ->).
  destruct (display_name_form x Ha) as [E|(c & cs & E & U & F)].
  - rewrite !E. repeat split; try assumption.
    now apply plain_first_char.
  - assert (C1 : char_in "," (display_name (strip x)) = false)
      by exact (display_name_chars "," eq_refl eq_refl eq_refl _ H1).
    assert (C2 : char_in ";" (display_name (strip x)) = false)
      by exact (display_name_chars ";" eq_refl eq_refl eq_refl _ H2).
    rewrite E in *. repeat split; try assumption.
    + exact (initials_text_strip c cs U).
    + apply initials_text_and_free.
    + exact (initials_text_display c cs U F).
    + destruct (initials_text_head c cs) as (r & ->).
      unfold first_char. cbn [String.get]. intros G. injection G as ->.
      discriminate.
Qed.

Lemma rewrite_authors_starts_plainly (l : list string) :
  Forall (fun t => first_char t <> Some "{"%char) l ->
  wrapped (rewrite_authors l) = false.
Proof.
  intros F. apply wrapped_first_char.
  destruct l as [|a [|b [|c l']]]; [discriminate | | |];
    inversion F as [|? ? Ha _]; subst.
  - exact Ha.
  - change (rewrite_authors [a; b]) with (a ++ String " " ("and " ++ b)).
    apply first_char_append; [exact Ha | discriminate].
  - rewrite rewrite_oxford. destruct (oxford_head a b (c :: l')) as (r & ->).
    apply first_char_append; [exact Ha | discriminate].
Qed.

End AbbreviatedNames.

(** C8, as stated, fails: "and" is a separator, so a name whose last word
    is "and" merges with the " and " that the rewrite puts after it.  Both
    names below have the abbreviated form and are free of dashes and braces,
    yet normalising the rewritten string yields other names. *)
Lemma rewritten_string_splits_elsewhere :
  wrapped "A. and, B. Jones" = false
  /\ forallb (fun t => abbreviated_name t && plain t)
             (tokens "A. and, B. Jones") = true
  /\ authors_list (normalize "A. and, B. Jones") = ["A. and"; "B. Jones"]
  /\ authors (normalize "A. and, B. Jones") = "A. and and B. Jones"
  /\ authors_list (normalize (authors (normalize "A. and, B. Jones")))
     = ["A."; "a. B. Jones"]
  /\ authors_list (normalize (authors (normalize "A. and, B. Jones")))
     <> authors_list (normalize "A. and, B. Jones").
Proof. repeat split. vm_compute. discriminate. Qed.

(** C8, amended: for authors that are not wrapped, whose names have the
    abbreviated form (every word in front of the surname and its suffixes is
    one character and a dot), contain no dashes or braces and do not have
    "and" as a word, normalising the rewritten string gives the same names
    and the same string again. *)
Theorem normalize_rewritten_is_stable (raw : string) :
  wrapped raw = false ->
  forallb (fun t => abbreviated_name t && plain t && and_free t)
          (tokens raw) = true ->
  authors_list (normalize (authors (normalize raw)))
  = authors_list (normalize raw)
  /\ authors (normalize (authors (normalize raw))) = authors (normalize raw).
Proof.
  intros W H. rewrite forallb_forall in H.
  destruct (init_plain None None None "" raw W) as (El & _ & Ea).
  fold (normalize raw) in El, Ea. rewrite El, Ea.
  assert (K : forall t, In t (tokens raw) ->
                clean (display_name t)
                /\ display_name (display_name t) = display_name t
                /\ first_char (display_name t) <> Some "{"%char).
  { intros t Ht. specialize (H t Ht).
    apply andb_prop in H. destruct H as [H Hf].
    apply andb_prop in H. destruct H as [Hb Hp].
    exact (abbreviated_token_entry raw t Ht Hb Hp Hf). }
  set (names := map display_name (tokens raw)).
  assert (Fc : Forall clean names).
  { apply Forall_forall. intros d Hd. apply in_map_iff in Hd.
    destruct Hd as (t & <- & Ht). apply (K t Ht). }
  assert (Ff : Forall (fun d => first_char d <> Some "{"%char) names).
  { apply Forall_forall. intros d Hd. apply in_map_iff in Hd.
    destruct Hd as (t & <- & Ht). apply (K t Ht). }
  assert (Id : map display_name names = names).
  { unfold names. rewrite map_map. apply map_ext_in.
    intros t Ht. apply (K t Ht). }
  assert (Nn : names <> []).
  { unfold names. intros E. apply map_eq_nil in E. exact (tokens_not_nil raw E). }
  pose proof (rewrite_authors_starts_plainly _ Ff) as W'.
  pose proof (tokens_rewrite_authors _ Nn Fc) as T.
  destruct (init_plain None None None "" _ W') as (El' & _ & Ea').
  fold (normalize (rewrite_authors names)) in El', Ea'.
  rewrite T, Id in El', Ea'. split; assumption.
Qed.

Lemma normalize_rewritten_is_stable_witness :
  authors_list (normalize (authors (normalize "A. Smith; B. NG and C. F. Lee Jr.")))
  = authors_list (normalize "A. Smith; B. NG and C. F. Lee Jr.")
  /\ authors (normalize (authors (normalize "A. Smith; B. NG and C. F. Lee Jr.")))
     = authors (normalize "A. Smith; B. NG and C. F. Lee Jr.").
Proof.
  apply normalize_rewritten_is_stable; reflexivity.
Defined.

(** The second name of the witness is changed by the first normalisation
    and stays as it is from then on. *)
Example initials_after_surname_settle :
  authors_list (normalize "A. Smith; B. NG and C. F. Lee Jr.")
  = ["A. Smith"; "N. G. B."; "C. F. Lee Jr."].
Proof. reflexivity. Qed.
